(** * node_env_var.cc: the process environment as a key/value store

    A shallow embedding of [src/node_env_var.cc]: the OS-backed store
    [RealEnvStore] in its two compile-time variants ([__POSIX__] and
    [_WIN32]) and the five named-property interceptors built on top of
    the abstract [KVStore] interface.

    Conventions.
    - A JavaScript string is its sequence of UTF-16 code units; a byte
      ([char]) and a wide character ([WCHAR], [uint16_t]) are integers.
    - A [char*] or [WCHAR*] handed to the OS is read up to its first
      NUL; pointers into a buffer are modelled by the remaining suffix.
    - [per_process::env_var_mutex] serialises every store operation; the
      model is sequential and describes one operation at a time. *)

From Stdlib Require Import String DecimalString.
From Stdlib Require Import ZArith List Bool Lia.
From Stdlib Require Import FunInd Recdef.
Import ListNotations.
Local Open Scope Z_scope.

(** ** Native strings *)

Definition JSString := list Z.

Definition NUL : Z := 0.
Definition SEP : Z := 61.   (* '=' *)

Module CStr.

(** [strlen] / [wcslen]: units before the terminator.  The end of the
    modelled buffer counts as a terminator. *)
Fixpoint strlen (p : list Z) : nat :=
  match p with
  | [] => O
  | c :: p' => if c =? NUL then O else S (strlen p')
  end.

(** [strchr] / [wcschr]: offset of the first [ch] in the string, [None]
    for the null pointer. *)
Fixpoint strchr (p : list Z) (ch : Z) : option nat :=
  match p with
  | [] => None
  | c :: p' =>
      if c =? ch then Some O
      else if c =? NUL then None
      else option_map S (strchr p' ch)
  end.

(** The text a reader of the pointer sees. *)
Definition c_str (p : list Z) : list Z := firstn (strlen p) p.

(** [p[0]]. *)
Definition deref (p : list Z) : Z := hd NUL p.

Fixpoint str_eqb (a b : list Z) : bool :=
  match a, b with
  | [], [] => true
  | x :: a', y :: b' => (x =? y) && str_eqb a' b'
  | _, _ => false
  end.

Definition has_sep (s : list Z) : bool := existsb (Z.eqb SEP) s.
Definition has_nul (s : list Z) : bool := existsb (Z.eqb NUL) s.

End CStr.
Import CStr.

(** ** Results of a native call *)

Inductive Exception : Type :=
| ERR_STRING_TOO_LONG
| JSError.            (* an exception raised by the embedder's own code *)

(** Why the process aborted. *)
Inductive Abort : Type :=
| CHECK_failed              (* a [CHECK(...)] did not hold *)
| ToLocalChecked_empty.     (* [ToLocalChecked()] on an empty handle *)

(** How a call into the store or an interceptor ends. *)
Inductive Outcome (A : Type) : Type :=
| Ok (a : A)               (* returned normally *)
| Thrown (e : Exception)   (* returned with an exception pending *)
| Fatal (why : Abort).     (* the process aborted *)
Arguments Ok {A} a.
Arguments Thrown {A} e.
Arguments Fatal {A} why.

(** ** class KVStore *)

(** [Get] answers [Ok None] for the empty handle [Local<String>()].
    Every method returns the store it leaves behind: the [const] ones may
    still touch per-thread OS state. *)
Class KVStore (S : Type) : Type := {
  kv_Get : S -> JSString -> Outcome (option JSString) * S;
  kv_Set : S -> JSString -> JSString -> S;
  kv_Query : S -> JSString -> Z * S;
  kv_Delete : S -> JSString -> S;
  kv_Enumerate : S -> Outcome (list JSString) * S
}.

(** String conversions supplied by the embedder ([util.h] and the V8
    API), which this file only calls. *)
Class HostStrings : Type := {
  (** [node::Utf8Value]: the bytes written to the buffer, terminator
      excluded. *)
  Utf8Value : JSString -> list Z;
  (** [String::NewFromUtf8] on exactly these bytes; [None] is the empty
      [MaybeLocal]. *)
  NewFromUtf8 : list Z -> option JSString;
  (** [String::NewFromTwoByte] on exactly these units: the string made
      of them, or the empty [MaybeLocal]. *)
  NewFromTwoByte : list Z -> option JSString;
  NewFromTwoByte_exact :
    forall units s, NewFromTwoByte units = Some s -> s = units
}.

(** Modelled from the spec: [node::TwoByteValue] lives in [util.h], outside
    this file.  On the UTF-16 platform keys and values are UTF-16 code-unit
    sequences, so the buffer holds the string's own code units. *)
Definition TwoByteValue (s : JSString) : list Z := s.

(** Narrowing to [int]. *)
Definition to_int (n : Z) : Z := (n + 2 ^ 31) mod 2 ^ 32 - 2 ^ 31.

(** The [length] argument of the V8 constructors: a negative length (the
    default is [-1]) means "up to the terminator". *)
Definition window (data : list Z) (length : Z) : list Z :=
  if length <? 0 then c_str data else firstn (Z.to_nat length) data.

Definition NewFromUtf8_n `{HostStrings} (data : list Z) (length : Z) :=
  NewFromUtf8 (window data length).

Definition NewFromTwoByte_n `{HostStrings} (data : list Z) (length : Z) :=
  NewFromTwoByte (window data length).

(** ** The byte-string platform *)

Module Posix.

(** [char** environ]: the records, in order. *)
Definition Environ := list (list Z).

(** The C library calls are modelled as POSIX specifies them and glibc
    implements them.  A record [NAME=VALUE] defines the variable called by
    the text before its first ['=']; a record without ['='] defines none.
    [setenv] and [unsetenv] look records up by the variable they define,
    and only for the names they accept. *)
Definition defines (name r : list Z) : bool :=
  match strchr r SEP with
  | Some n => str_eqb (firstn n r) name
  | None => false
  end.

Definition value_of (r : list Z) : list Z :=
  match strchr r SEP with
  | Some n => c_str (skipn (S n) r)
  | None => []
  end.

(** A name [setenv] and [unsetenv] accept; otherwise they fail with
    [EINVAL] and leave the environment alone. *)
Definition valid_name (name : list Z) : bool :=
  negb (match name with [] => true | _ => false end) && negb (has_sep name).

(** What follows [name] in the record [r], when [r] starts with [name]
    ([strncmp] over the length of the name). *)
Fixpoint after_name (name r : list Z) : option (list Z) :=
  match name, r with
  | [], _ => Some r
  | x :: name', y :: r' => if x =? y then after_name name' r' else None
  | _ :: _, [] => None
  end.

(** The value [getenv] finds in one record: the record starts with the
    name, a ['='] comes next, and the value is what follows it. *)
Definition found_in (name r : list Z) : option (list Z) :=
  match after_name name r with
  | Some (c :: rest) => if c =? SEP then Some (c_str rest) else None
  | _ => None
  end.

(** [getenv(name)]: nothing for the empty name; otherwise the value found
    in the first record that starts with [name] followed by ['='], the
    null pointer ([None]) when there is none.  The name is not checked, so
    a name that holds a ['='] is looked for like any other. *)
Fixpoint getenv (env : Environ) (name : list Z) : option (list Z) :=
  match env with
  | [] => None
  | r :: env' =>
      if match name with [] => true | _ => false end then None
      else match found_in name r with
           | Some v => Some v
           | None => getenv env' name
           end
  end.

Fixpoint overwrite (env : Environ) (name value : list Z) : Environ :=
  match env with
  | [] => [name ++ SEP :: value]
  | r :: env' =>
      if defines name r then (name ++ SEP :: value) :: env'
      else r :: overwrite env' name value
  end.

(** [setenv(name, value, 1)]: the first record that defines [name] is
    replaced, or a new record is added at the end. *)
Definition setenv (env : Environ) (name value : list Z) : Environ :=
  if valid_name name then overwrite env name value else env.

(** [unsetenv(name)]: every record that defines [name] is removed. *)
Definition unsetenv (env : Environ) (name : list Z) : Environ :=
  if valid_name name then filter (fun r => negb (defines name r)) env
  else env.

Section Store.
Context `{HostStrings}.

Definition RealEnvStore_Get (environ : Environ) (property : JSString)
  : Outcome (option JSString) * Environ :=
  let key := Utf8Value property in
  match getenv environ (c_str key) with
  | Some val =>
      match NewFromUtf8_n val (-1) with
      | Some s => (Ok (Some s), environ)
      | None => (Fatal ToLocalChecked_empty, environ)
      end
  | None => (Ok None, environ)
  end.

Definition RealEnvStore_Set (environ : Environ) (property value : JSString)
  : Environ :=
  let key := Utf8Value property in
  let val := Utf8Value value in
  setenv environ (c_str key) (c_str val).

Definition RealEnvStore_Query (environ : Environ) (property : JSString)
  : Z * Environ :=
  let key := Utf8Value property in
  match getenv environ (c_str key) with
  | Some _ => (0, environ)
  | None => (-1, environ)
  end.

Definition RealEnvStore_Delete (environ : Environ) (property : JSString)
  : Environ :=
  let key := Utf8Value property in
  unsetenv environ (c_str key).

(** [const int length = s ? s - var : strlen(var)]. *)
Definition key_length (var : list Z) : Z :=
  to_int (match strchr var SEP with
          | Some s => Z.of_nat s
          | None => Z.of_nat (strlen var)
          end).

(** The [for] loop filling [env_v]; [ToLocalChecked] aborts on the
    first key the host cannot build. *)
Fixpoint Enumerate_loop (environ : Environ) : Outcome (list JSString) :=
  match environ with
  | [] => Ok []
  | var :: rest =>
      match NewFromUtf8_n var (key_length var) with
      | None => Fatal ToLocalChecked_empty
      | Some k =>
          match Enumerate_loop rest with
          | Ok ks => Ok (k :: ks)
          | other => other
          end
      end
  end.

Definition RealEnvStore_Enumerate (environ : Environ)
  : Outcome (list JSString) * Environ :=
  (Enumerate_loop environ, environ).

#[export] Instance RealEnvStore : KVStore Environ := {
  kv_Get := RealEnvStore_Get;
  kv_Set := RealEnvStore_Set;
  kv_Query := RealEnvStore_Query;
  kv_Delete := RealEnvStore_Delete;
  kv_Enumerate := RealEnvStore_Enumerate
}.
End Store.

End Posix.

(** ** The UTF-16 platform *)

Definition ERROR_SUCCESS : Z := 0.
Definition ERROR_INVALID_PARAMETER : Z := 87.
Definition ERROR_ENVVAR_NOT_FOUND : Z := 203.

(** [v8::PropertyAttribute]. *)
Definition ReadOnly : Z := 1.
Definition DontEnum : Z := 2.
Definition DontDelete : Z := 4.

(** Variable names are compared after case folding; the folding table is
    the platform's, and nothing but ['='] folds to ['=']. *)
Class NameFolding : Type := {
  upcase : Z -> Z;
  upcase_sep : forall c, upcase c = upcase SEP -> c = SEP
}.

Module Win32.

(** The Win32 calls are modelled as their documentation specifies them.
    The state is the environment block, record by record, and the calling
    thread's last-error code. *)
Record OsState : Type := mkOs {
  block : list (list Z);
  last_error : Z
}.

Definition SetLastError (st : OsState) (code : Z) : OsState :=
  mkOs (block st) code.
Definition GetLastError (st : OsState) : Z := last_error st.

(** A record [NAME=VALUE]; the separator is looked for after the first
    character, which lets a name begin with ['=']. *)
Definition split_record (r : list Z) : option (list Z * list Z) :=
  match r with
  | [] => None
  | c :: r' =>
      match strchr r' SEP with
      | Some n => Some (c :: firstn n r', c_str (skipn (S n) r'))
      | None => None
      end
  end.

Section Api.
Context `{NameFolding}.

Definition name_eqb (a b : list Z) : bool :=
  str_eqb (map upcase a) (map upcase b).

Definition defines (name r : list Z) : bool :=
  match split_record r with
  | Some (n, _) => name_eqb n name
  | None => false
  end.

Fixpoint lookup (blk : list (list Z)) (name : list Z) : option (list Z) :=
  match blk with
  | [] => None
  | r :: blk' =>
      if defines name r
      then match split_record r with
           | Some (_, v) => Some v
           | None => None
           end
      else lookup blk' name
  end.

(** [GetEnvironmentVariableW(name, buffer, nSize)]: the return value,
    the text left in the buffer when it was filled, and the state.
    A value that fits is copied and its length returned; one that
    does not fit yields the size it needs, terminator included; a
    missing variable yields [0] with [ERROR_ENVVAR_NOT_FOUND]. *)
Definition GetEnvironmentVariableW (st : OsState) (name : list Z)
    (nSize : Z) : Z * list Z * OsState :=
  match lookup (block st) name with
  | Some v =>
      let len := Z.of_nat (length v) in
      if len <? nSize then (len, v, st) else (len + 1, [], st)
  | None => (0, [], SetLastError st ERROR_ENVVAR_NOT_FOUND)
  end.

(** Names the platform accepts: not empty, no ['='] after the first
    character. *)
Definition valid_name (name : list Z) : bool :=
  match name with
  | [] => false
  | _ :: rest => negb (has_sep rest)
  end.

Fixpoint overwrite (blk : list (list Z)) (name value : list Z)
  : list (list Z) :=
  match blk with
  | [] => [name ++ SEP :: value]
  | r :: blk' =>
      if defines name r then (name ++ SEP :: value) :: blk'
      else r :: overwrite blk' name value
  end.

(** [SetEnvironmentVariableW(name, value)]; [None] is the null
    pointer, which deletes the variable. *)
Definition SetEnvironmentVariableW (st : OsState) (name : list Z)
    (value : option (list Z)) : bool * OsState :=
  if valid_name name then
    match value with
    | Some v => (true, mkOs (overwrite (block st) name v) (last_error st))
    | None =>
        (true, mkOs (filter (fun r => negb (defines name r)) (block st))
                    (last_error st))
    end
  else (false, SetLastError st ERROR_INVALID_PARAMETER).

(** [GetEnvironmentStringsW()]: the records, each with its
    terminator, and the closing terminator; [None] is the null
    pointer. *)
Definition GetEnvironmentStringsW (st : OsState) : option (list Z) :=
  Some (flat_map (fun r => r ++ [NUL]) (block st) ++ [NUL]).
End Api.

Section Store.
Context `{HostStrings} `{NameFolding}.

(** [arraysize(buffer)] for [WCHAR buffer[32767]]. *)
Definition buffer_size : Z := 32767.

Definition RealEnvStore_Get (st : OsState) (property : JSString)
  : Outcome (option JSString) * OsState :=
  let key := TwoByteValue property in
  let st := SetLastError st ERROR_SUCCESS in
  let '(result, buffer, st) :=
    GetEnvironmentVariableW st (c_str key) buffer_size in
  if ((result >? 0) || (GetLastError st =? ERROR_SUCCESS))
     && (result <? buffer_size)
  then
    match NewFromTwoByte_n buffer (-1) with
    | None => (Thrown ERR_STRING_TOO_LONG, st)
    | Some rc => (Ok (Some rc), st)
    end
  else (Ok None, st).

Definition RealEnvStore_Set (st : OsState) (property value : JSString)
  : OsState :=
  let key := TwoByteValue property in
  let val := TwoByteValue value in
  let key_ptr := key in
  if negb (deref key_ptr =? SEP)
  then snd (SetEnvironmentVariableW st (c_str key_ptr) (Some (c_str val)))
  else st.

Definition RealEnvStore_Query (st : OsState) (property : JSString)
  : Z * OsState :=
  let key := TwoByteValue property in
  let key_ptr := key in
  let st := SetLastError st ERROR_SUCCESS in
  let '(result, _, st) := GetEnvironmentVariableW st (c_str key_ptr) 0 in
  if (result >? 0) || (GetLastError st =? ERROR_SUCCESS) then
    if deref key_ptr =? SEP
    then (Z.lor (Z.lor ReadOnly DontDelete) DontEnum, st)
    else (0, st)
  else (-1, st).

Definition RealEnvStore_Delete (st : OsState) (property : JSString)
  : OsState :=
  let key := TwoByteValue property in
  let key_ptr := key in
  snd (SetEnvironmentVariableW st (c_str key_ptr) None).

(** [s - p] once [s = wcschr(p, L'=')] has been replaced by the end of
    the record when it is null. *)
Definition key_end (p : list Z) : nat :=
  match strchr p SEP with
  | Some n => n
  | None => strlen p
  end.

(** The [while] walk over the block, which stops at an empty record.
    [p] is the rest of the buffer, [env_v] the keys pushed so far. *)
Function Enumerate_walk (p : list Z) (env_v : list JSString)
    {measure length p} : Outcome (list JSString) :=
  match p with
  | [] => Ok env_v
  | c :: q =>
      if c =? NUL then Ok env_v
      else if c =? SEP then
        Enumerate_walk (skipn (strlen (c :: q) + 1) (c :: q)) env_v
      else
        match NewFromTwoByte_n (c :: q) (to_int (Z.of_nat (key_end (c :: q)))) with
        | None => Thrown ERR_STRING_TOO_LONG
        | Some rc =>
            Enumerate_walk
              (skipn (key_end (c :: q)
                      + strlen (skipn (key_end (c :: q)) (c :: q)) + 1)
                 (c :: q))
              (env_v ++ [rc])
        end
  end.
Proof.
  all: intros; rewrite length_skipn; simpl length; lia.
Defined.

Definition RealEnvStore_Enumerate (st : OsState)
  : Outcome (list JSString) * OsState :=
  match GetEnvironmentStringsW st with
  | None => (Ok [], st)                 (* This should not happen. *)
  | Some environment => (Enumerate_walk environment [], st)
  end.

#[export] Instance RealEnvStore : KVStore OsState := {
  kv_Get := RealEnvStore_Get;
  kv_Set := RealEnvStore_Set;
  kv_Query := RealEnvStore_Query;
  kv_Delete := RealEnvStore_Delete;
  kv_Enumerate := RealEnvStore_Enumerate
}.
End Store.

End Win32.

(** ** The named-property interceptors *)

(** The JavaScript values an interceptor can be handed. *)
Inductive Value : Type :=
| VUndefined
| VNull
| VBoolean (b : bool)
| VNumber (bits : Z)
| VString (s : JSString)
| VSymbol (id : nat)
| VObject (id : nat).

Definition IsString (v : Value) : bool :=
  match v with VString _ => true | _ => false end.
Definition IsSymbol (v : Value) : bool :=
  match v with VSymbol _ => true | _ => false end.
Definition IsNumber (v : Value) : bool :=
  match v with VNumber _ => true | _ => false end.
Definition IsBoolean (v : Value) : bool :=
  match v with VBoolean _ => true | _ => false end.


(** [property.As<String>()]. *)
Definition AsString (v : Value) : JSString :=
  match v with VString s => s | _ => [] end.

(** What the embedder decides: the string form of a value that is
    neither a string nor a symbol (it may run user code and throw), and
    whether the n-th deprecation notice, counted from 0, gets through. *)
Class HostValues : Type := {
  string_form : Value -> option JSString;
  notice_delivered : nat -> bool
}.

(** [v->ToString(context)]; [None] is the empty [MaybeLocal], left with
    an exception pending. *)
Definition ToString `{HostValues} (v : Value) : option JSString :=
  match v with
  | VString s => Some s
  | VSymbol _ => None
  | _ => string_form v
  end.

Inductive StoreCall : Type :=
| CallGet (key : JSString)
| CallSet (key value : JSString)
| CallQuery (key : JSString)
| CallDelete (key : JSString)
| CallEnumerate.

Record Notice : Type := mkNotice {
  notice_message : String.string;
  notice_code : String.string
}.

(** [node::Environment], as far as the interceptors use it, with the
    calls made on the store and the notices handed to the collaborator
    recorded in order. *)
Record Environment (S : Type) : Type := mkEnv {
  envvars : S;
  pending_deprecation : bool;
  emit_env_nonstring_warning_ : bool;
  calls : list StoreCall;
  notices : list Notice
}.
Arguments mkEnv {S}.
Arguments envvars {S}.
Arguments pending_deprecation {S}.
Arguments emit_env_nonstring_warning_ {S}.
Arguments calls {S}.
Arguments notices {S}.

Module Facade.
Section Interceptors.
Context {S : Type} `{KVStore S} `{HostValues}.

Definition after_call (env : Environment S) (s : S) (c : StoreCall)
  : Environment S :=
  mkEnv s (pending_deprecation env) (emit_env_nonstring_warning_ env)
        (calls env ++ [c]) (notices env).

(** Modelled from the spec: [Environment::EmitProcessEnvWarning] is
    declared outside this file.  The one-time warning state is a single
    boolean flag owned by the calling context; the call reports whether
    the warning is still due and marks it as emitted. *)
Definition EmitProcessEnvWarning (env : Environment S)
  : bool * Environment S :=
  (emit_env_nonstring_warning_ env,
   mkEnv (envvars env) (pending_deprecation env) false
         (calls env) (notices env)).

(** Modelled from the spec: [ProcessEmitDeprecationWarning] is the
    deprecation-notification collaborator, a single call taking a
    message and a stable diagnostic code that may fail; [None] is
    [Nothing]. *)
Definition ProcessEmitDeprecationWarning (env : Environment S)
    (message code : String.string) : option bool * Environment S :=
  let n := length (notices env) in
  ((if notice_delivered n then Some true else None),
   mkEnv (envvars env) (pending_deprecation env)
         (emit_env_nonstring_warning_ env) (calls env)
         (notices env ++ [mkNotice message code])).

Definition DEP0104_message : String.string :=
  String.append
    "Assigning any value other than a string, number, or boolean to a "%string
  (String.append
    "process.env property is deprecated. Please make sure to convert "%string
  (String.append "the "%string
    "value to a string before setting process.env with it."%string)).

(** [info.GetReturnValue().Set(handle)]: an empty handle leaves the
    slot at its default. *)
Definition lift_string (r : Outcome (option JSString))
  : Outcome (option Value) :=
  match r with
  | Ok (Some s) => Ok (Some (VString s))
  | Ok None => Ok None
  | Thrown e => Thrown e
  | Fatal why => Fatal why
  end.

Definition EnvGetter (property : Value) (env : Environment S)
  : Outcome (option Value) * Environment S :=
  if IsSymbol property then (Ok (Some VUndefined), env)
  else if negb (IsString property) then (Fatal CHECK_failed, env)
  else
    let key := AsString property in
    let '(r, s) := kv_Get (envvars env) key in
    (lift_string r, after_call env s (CallGet key)).

Definition EnvSetter (property value : Value) (env : Environment S)
  : Outcome (option Value) * Environment S :=
  let '(warn, env) :=
    if pending_deprecation env && negb (IsString value)
       && negb (IsNumber value) && negb (IsBoolean value)
    then EmitProcessEnvWarning env
    else (false, env) in
  let '(aborted, env) :=
    if warn then
      let '(m, env) :=
        ProcessEmitDeprecationWarning env DEP0104_message "DEP0104"%string in
      (match m with None => true | Some _ => false end, env)
    else (false, env) in
  if aborted then (Thrown JSError, env)
  else
    match ToString property with
    | None => (Thrown JSError, env)
    | Some key =>
        match ToString value with
        | None => (Thrown JSError, env)
        | Some value_string =>
            let s := kv_Set (envvars env) key value_string in
            let env := after_call env s (CallSet key value_string) in
            (* Whether it worked or not, always return value. *)
            (Ok (Some value), env)
        end
    end.

Definition EnvQuery (property : Value) (env : Environment S)
  : Outcome (option Z) * Environment S :=
  if IsString property then
    let key := AsString property in
    let '(rc, s) := kv_Query (envvars env) key in
    let env := after_call env s (CallQuery key) in
    if negb (rc =? -1) then (Ok (Some rc), env) else (Ok None, env)
  else (Ok None, env).

Definition EnvDeleter (property : Value) (env : Environment S)
  : Outcome (option bool) * Environment S :=
  let env :=
    if IsString property then
      let key := AsString property in
      after_call env (kv_Delete (envvars env) key) (CallDelete key)
    else env in
  (Ok (Some true), env).

Definition EnvEnumerator (env : Environment S)
  : Outcome (option (list JSString)) * Environment S :=
  let '(r, s) := kv_Enumerate (envvars env) in
  let env := after_call env s CallEnumerate in
  (match r with
   | Ok ks => Ok (Some ks)
   | Thrown e => Thrown e
   | Fatal why => Fatal why
   end, env).
End Interceptors.
End Facade.

(** ** A reference host *)

(** Modelled from the spec: the string/encoding conversion utilities, the
    value coercion and the platform's case folding are external
    collaborators of this file.  The instances below are one concrete
    choice of them, on which the model runs: UTF-8 with U+FFFD for what
    cannot be converted, strings of at most [kMaxLength] code units, ASCII
    case folding, and the usual string forms of the primitive values. *)

Module ReferenceHost.

Definition kMaxLength : Z := 2 ^ 28 - 16.

Definition in_range (lo hi c : Z) : bool := (lo <=? c) && (c <=? hi).

(** UTF-16 code units to code points. *)
Fixpoint code_points (s : list Z) : list Z :=
  match s with
  | [] => []
  | hi :: rest =>
      if in_range 55296 56319 hi then
        match rest with
        | lo :: rest' =>
            if in_range 56320 57343 lo
            then (65536 + (hi - 55296) * 1024 + (lo - 56320))
                   :: code_points rest'
            else 65533 :: code_points rest
        | [] => [65533]
        end
      else if in_range 56320 57343 hi then 65533 :: code_points rest
      else hi :: code_points rest
  end.

Definition utf8_of_point (cp : Z) : list Z :=
  if cp <? 128 then [cp]
  else if cp <? 2048 then
    [Z.lor 192 (Z.shiftr cp 6); Z.lor 128 (Z.land cp 63)]
  else if cp <? 65536 then
    [Z.lor 224 (Z.shiftr cp 12);
     Z.lor 128 (Z.land (Z.shiftr cp 6) 63);
     Z.lor 128 (Z.land cp 63)]
  else
    [Z.lor 240 (Z.shiftr cp 18);
     Z.lor 128 (Z.land (Z.shiftr cp 12) 63);
     Z.lor 128 (Z.land (Z.shiftr cp 6) 63);
     Z.lor 128 (Z.land cp 63)].

Definition utf8_encode (s : JSString) : list Z :=
  flat_map utf8_of_point (code_points s).

Definition cont (b : Z) : bool := in_range 128 191 b.
Definition low6 (b : Z) : Z := Z.land b 63.

(** What the first byte of a sequence announces: a code point of its
    own, a longer sequence (the bits read, the number of bytes to come and
    the bounds of the next one, which rule out overlong forms, surrogates
    and code points above U+10FFFF), or nothing well-formed. *)
Inductive Lead : Type :=
| Single (cp : Z)
| Start (cp : Z) (needed : nat) (lower upper : Z)
| Bad.

Definition lead (b : Z) : Lead :=
  if b <? 128 then Single b
  else if in_range 194 223 b then Start (Z.land b 31) 1 128 191
  else if in_range 224 239 b then
    Start (Z.land b 15) 2 (if b =? 224 then 160 else 128)
          (if b =? 237 then 159 else 191)
  else if in_range 240 244 b then
    Start (Z.land b 7) 3 (if b =? 240 then 144 else 128)
          (if b =? 244 then 143 else 191)
  else Bad.

(** UTF-8 bytes to code points, from the state of the sequence being
    read; every maximal ill-formed run of bytes becomes one U+FFFD. *)
Fixpoint utf8_points_from (st : option (Z * nat * Z * Z)) (bs : list Z)
  : list Z :=
  match bs with
  | [] => match st with None => [] | Some _ => [65533] end
  | b :: r =>
      let restart :=
        match lead b with
        | Single cp => cp :: utf8_points_from None r
        | Start cp n lo hi => utf8_points_from (Some (cp, n, lo, hi)) r
        | Bad => 65533 :: utf8_points_from None r
        end in
      match st with
      | None => restart
      | Some (cp, n, lo, hi) =>
          if in_range lo hi b then
            match n with
            | S (S n') =>
                utf8_points_from (Some (cp * 64 + low6 b, S n', 128, 191)) r
            | _ => (cp * 64 + low6 b) :: utf8_points_from None r
            end
          else 65533 :: restart
      end
  end.

Definition utf8_points : list Z -> list Z := utf8_points_from None.

Definition utf16_of_point (cp : Z) : list Z :=
  if cp <? 65536 then [cp]
  else [55296 + Z.shiftr (cp - 65536) 10; 56320 + Z.land (cp - 65536) 1023].

Definition bounded (s : list Z) : option JSString :=
  if Z.of_nat (length s) <=? kMaxLength then Some s else None.

Definition utf8_decode (bs : list Z) : option JSString :=
  bounded (flat_map utf16_of_point (utf8_points bs)).

#[export, refine] Instance strings : HostStrings := {
  Utf8Value := utf8_encode;
  NewFromUtf8 := utf8_decode;
  NewFromTwoByte := bounded
}.
Proof.
  intros units s. unfold bounded. destruct (_ <=? _); congruence.
Defined.

Definition ascii_upcase (c : Z) : Z :=
  if in_range 97 122 c then c - 32 else c.

#[export, refine] Instance folding : NameFolding := {
  upcase := ascii_upcase
}.
Proof.
  intros c. unfold ascii_upcase, in_range, SEP. simpl.
  destruct (97 <=? c) eqn:E1, (c <=? 122) eqn:E2; simpl; lia.
Defined.

(** The code units of an ASCII literal. *)
Definition units (s : string) : JSString :=
  map (fun a => Z.of_N (Ascii.N_of_ascii a)) (list_ascii_of_string s).

Definition decimal (n : Z) : JSString :=
  units (DecimalString.NilZero.string_of_int (Z.to_int n)).

Fixpoint drop_zeros (ds : list Z) : list Z :=
  match ds with
  | 48 :: ds' => drop_zeros ds'
  | _ => ds
  end.

(** An integer as ECMAScript prints the number it denotes: in full below
    10^21, and from there on as its significant digits, a point after the
    first of them, and the exponent.  The integers meant are those of at
    most 15 significant digits, whose digits are those of the number. *)
Definition number_form (n : Z) : JSString :=
  if Z.abs n <? 10 ^ 21 then decimal n
  else
    let ds := decimal (Z.abs n) in
    (if n <? 0 then [45] else [])
    ++ match rev (drop_zeros (rev ds)) with
       | d :: (_ :: _) as fraction => d :: 46 :: fraction
       | significand => significand
       end
    ++ units "e+" ++ decimal (Z.of_nat (length ds) - 1).

(** String forms: the primitives as ECMAScript prints them (numbers
    are kept to the integers), ["[object Object]"] for an object, except
    that the object numbered 0 throws from its own [toString]. *)
Definition reference_string_form (v : Value) : option JSString :=
  match v with
  | VUndefined => Some (units "undefined")
  | VNull => Some (units "null")
  | VBoolean true => Some (units "true")
  | VBoolean false => Some (units "false")
  | VNumber n => Some (number_form n)
  | VString s => Some s
  | VSymbol _ => None
  | VObject O => None
  | VObject _ => Some (units "[object Object]")
  end.

(** A collaborator that delivers every notice. *)
#[export] Instance values : HostValues := {
  string_form := reference_string_form;
  notice_delivered := fun _ => true
}.

(** A collaborator that fails on every notice. *)
Definition failing_values : HostValues := {|
  string_form := reference_string_form;
  notice_delivered := fun _ => false
|}.

End ReferenceHost.

(** ** Notions the properties are stated with *)

(** The key of a raw record, in the spec's words: the text before the
    first separator, and the entire text of a record that has none. *)
Definition key_text (r : list Z) : list Z :=
  match strchr r SEP with
  | Some n => firstn n r
  | None => c_str r
  end.

(** The keys built from the texts in order; the first text the host
    cannot turn into a string ends the enumeration with [failure]. *)
Fixpoint build_keys (decode : list Z -> option JSString)
    (failure : Outcome (list JSString)) (texts : list (list Z))
  : Outcome (list JSString) :=
  match texts with
  | [] => Ok []
  | t :: ts =>
      match decode t with
      | None => failure
      | Some k =>
          match build_keys decode failure ts with
          | Ok ks => Ok (k :: ks)
          | other => other
          end
      end
  end.

Definition is_failure (o : Outcome (list JSString)) : Prop :=
  forall ks, o <> Ok ks.

(** A record short enough for its length to fit an [int]. *)
Definition short (r : list Z) : bool := Z.of_nat (length r) <? 2 ^ 31.

(** The records of the UTF-16 block. *)
Module Block.
(** A record as the block holds it: not empty, free of terminators,
    shorter than 2^31 units. *)
Definition well_formed (r : list Z) : bool :=
  negb (match r with [] => true | _ => false end)
  && negb (has_nul r) && short r.

(** A hidden record: its key starts with ['=']. *)
Definition hidden (r : list Z) : bool := deref r =? SEP.
End Block.

(** Writes made through one [Environment], and what the spec calls a
    qualifying one. *)
Module Writes.
Section Interceptors.
Context {S : Type} `{KVStore S} `{HostValues}.

(** Deprecation-pending configuration and a value that is neither a
    string, a number nor a boolean. *)
Definition qualifies (env : Environment S) (value : Value) : bool :=
  pending_deprecation env && negb (IsString value)
  && negb (IsNumber value) && negb (IsBoolean value).

(** The deprecation notice is due and the collaborator fails on it. *)
Definition notification_fails (env : Environment S) (value : Value) : bool :=
  qualifies env value && emit_env_nonstring_warning_ env
  && negb (notice_delivered (length (notices env))).

(** A sequence of [Write(name, value)] calls, oldest first. *)
Fixpoint writes (ws : list (Value * Value)) (env : Environment S)
  : Environment S :=
  match ws with
  | [] => env
  | (name, value) :: ws' =>
      writes ws' (snd (Facade.EnvSetter name value env))
  end.
End Interceptors.

(** Modelled from the spec: the environment block is shared by all the
    execution contexts hosted in one process, and the one-time warning
    state is owned by the calling context, not global.  A context started
    later in the same process finds the block, and the process's records
    of calls and notices, as they are; its own warning is still due. *)
Definition new_context {S : Type} (env : Environment S) : Environment S :=
  mkEnv (envvars env) (pending_deprecation env) true (calls env) (notices env).
End Writes.

(** Concrete inputs on which the model is run. *)
Module Samples.
Import ReferenceHost.

Definition FOO : JSString := units "FOO".
Definition bar : JSString := units "bar".
Definition drive : JSString := units "=C:".

(** A block as a freshly started process may find it. *)
Definition started : Win32.OsState :=
  Win32.mkOs [units "=C:=C:\node"; units "PATH=C:\bin"; units "NOSEP"] 0.

(** A value of 32767 code units, one more than the buffer can hold
    next to its terminator. *)
Definition long_value : list Z := repeat 120 (Z.to_nat 32767).
Definition crowded : Win32.OsState :=
  Win32.mkOs [units "A" ++ SEP :: long_value] 0.

Definition inherited : Posix.Environ :=
  [units "HOME=/root"; units "NOSEP"; units "EMPTY="].

(** A variable [A] whose value holds a ['='], and the string that reads
    like its record up to the second ['=']. *)
Definition A : JSString := units "A".
Definition B_c : JSString := units "B=c".
Definition A_B : JSString := units "A=B".
Definition c : JSString := units "c".
Definition nested : Posix.Environ := [units "A=B=c"].

(** A context at start-up: the warning is still due, nothing was
    called or notified yet. *)
Definition fresh {S : Type} (s : S) (pending : bool) : Environment S :=
  mkEnv s pending true [] [].
End Samples.

(** ** The handler configuration *)

(** [CreateEnvVarProxy] registers the five interceptors in one
    [NamedPropertyHandlerConfiguration], in the order getter, setter,
    query, deleter, enumerator; the host then calls the interceptor that
    belongs to the kind of access made on the proxy object. *)
Module Proxy.

Inductive Access : Type :=
| Read (name : Value)
| Write (name value : Value)
| Check (name : Value)
| Remove (name : Value)
| List.

Section Interceptors.
Context {S : Type} `{KVStore S} `{HostValues}.

(** The context after one access. *)
Definition intercept (a : Access) (env : Environment S) : Environment S :=
  match a with
  | Read name => snd (Facade.EnvGetter name env)
  | Write name value => snd (Facade.EnvSetter name value env)
  | Check name => snd (Facade.EnvQuery name env)
  | Remove name => snd (Facade.EnvDeleter name env)
  | List => snd (Facade.EnvEnumerator env)
  end.

(** A sequence of accesses, oldest first. *)
Fixpoint accesses (l : list Access) (env : Environment S) : Environment S :=
  match l with
  | [] => env
  | a :: l' => accesses l' (intercept a env)
  end.

Definition is_write (a : Access) : bool :=
  match a with Write _ _ => true | _ => false end.
End Interceptors.
End Proxy.

(** Records that carry a value, that is, hold a separator where the
    platform looks for it. *)
Module Valued.
Definition posix (r : list Z) : bool :=
  match strchr r SEP with Some _ => true | None => false end.
Definition win32 (r : list Z) : bool :=
  match Win32.split_record r with Some _ => true | None => false end.
End Valued.

(** * Properties *)

(** ** Native strings *)

Section CStrFacts.

Lemma str_eqb_refl s : str_eqb s s = true.
Proof.
  induction s as [|x s IH]; simpl; [reflexivity|].
  now rewrite Z.eqb_refl, IH.
Qed.

Lemma str_eqb_eq a : forall b, str_eqb a b = true -> a = b.
Proof.
  induction a as [|x a IH]; intros [|y b]; simpl; try congruence.
  intros E. apply andb_true_iff in E as [E1 E2].
  apply Z.eqb_eq in E1. f_equal; auto.
Qed.

Lemma has_nul_cons x s : has_nul (x :: s) = (x =? NUL) || has_nul s.
Proof. unfold has_nul. cbn [existsb]. now rewrite Z.eqb_sym. Qed.

Lemma has_sep_cons x s : has_sep (x :: s) = (x =? SEP) || has_sep s.
Proof. unfold has_sep. cbn [existsb]. now rewrite Z.eqb_sym. Qed.

Lemma strlen_no_nul s : has_nul s = false -> strlen s = length s.
Proof.
  induction s as [|x s IH]; [reflexivity|].
  rewrite has_nul_cons. intros E. apply orb_false_iff in E as [E1 E2].
  cbn [strlen length]. rewrite E1. f_equal; auto.
Qed.

Lemma c_str_no_nul p : has_nul (c_str p) = false.
Proof.
  unfold c_str. induction p as [|x p IH]; [reflexivity|].
  cbn [strlen]. destruct (x =? NUL) eqn:E; [reflexivity|].
  cbn [firstn]. now rewrite has_nul_cons, E, IH.
Qed.

Lemma c_str_fixed s : has_nul s = false -> c_str s = s.
Proof.
  intros E. unfold c_str. rewrite (strlen_no_nul _ E). apply firstn_all.
Qed.

Lemma c_str_idem p : c_str (c_str p) = c_str p.
Proof. apply c_str_fixed, c_str_no_nul. Qed.

(** The separator written after a name is the first one of the record. *)
Lemma strchr_record name v :
  has_nul name = false -> has_sep name = false ->
  strchr (name ++ SEP :: v) SEP = Some (length name).
Proof.
  induction name as [|x name IH]; intros En Es.
  - cbn [app strchr]. now rewrite Z.eqb_refl.
  - rewrite has_nul_cons in En. rewrite has_sep_cons in Es.
    apply orb_false_iff in En as [En1 En2].
    apply orb_false_iff in Es as [Es1 Es2].
    cbn [app strchr length]. rewrite Es1, En1, IH by assumption.
    reflexivity.
Qed.

Lemma strchr_bound p ch : forall n, strchr p ch = Some n -> (n < length p)%nat.
Proof.
  induction p as [|x p IH]; simpl; intros n; [discriminate|].
  destruct (x =? ch); [intros [= <-]; lia|].
  destruct (x =? NUL); [discriminate|].
  destruct (strchr p ch) as [m|]; simpl; [|discriminate].
  intros [= <-]. specialize (IH m eq_refl). lia.
Qed.

(** Nothing before the first separator is a separator. *)
Lemma strchr_prefix r : forall n,
  strchr r SEP = Some n -> has_sep (firstn n r) = false.
Proof.
  induction r as [|x r IH]; cbn [strchr]; intros n; [discriminate|].
  destruct (x =? SEP) eqn:E; [intros [= <-]; reflexivity|].
  destruct (x =? NUL); [discriminate|].
  destruct (strchr r SEP) as [m|]; cbn [option_map]; [|discriminate].
  intros [= <-]. cbn [firstn]. rewrite has_sep_cons, E. now apply IH.
Qed.

Lemma has_sep_eqb a b :
  has_sep a = false -> has_sep b = true -> str_eqb a b = false.
Proof.
  intros Ea Eb. destruct (str_eqb a b) eqn:E; [|reflexivity].
  apply str_eqb_eq in E. congruence.
Qed.

Lemma to_int_small n : 0 <= n < 2 ^ 31 -> to_int n = n.
Proof.
  intros Hn. unfold to_int. rewrite Z.mod_small; lia.
Qed.

End CStrFacts.

(** ** The byte-string platform *)

Module PosixFacts.
Import Posix.

Lemma defines_record name v :
  has_nul name = false -> has_sep name = false ->
  defines name (name ++ SEP :: v) = true.
Proof.
  intros En Es. unfold defines. rewrite strchr_record by assumption.
  rewrite firstn_app, Nat.sub_diag, firstn_all. simpl.
  rewrite app_nil_r. apply str_eqb_refl.
Qed.

Lemma value_of_record name v :
  has_nul name = false -> has_sep name = false ->
  value_of (name ++ SEP :: v) = c_str v.
Proof.
  intros En Es. unfold value_of. rewrite strchr_record by assumption.
  change (S (length name)) with (1 + length name)%nat.
  rewrite <- skipn_skipn, skipn_app, Nat.sub_diag, skipn_all. reflexivity.
Qed.

(** No record defines a name that holds a separator. *)
Lemma defines_sep name r : has_sep name = true -> defines name r = false.
Proof.
  intros Es. unfold defines. destruct (strchr r SEP) as [n|] eqn:E; auto.
  apply has_sep_eqb; auto using strchr_prefix.
Qed.

(** On a name without ['='], what [getenv] finds in a record is the
    value of the variable the record defines, when that is the name. *)
Lemma found_in_defines name : forall r,
  has_sep name = false -> has_nul name = false ->
  found_in name r = if defines name r then Some (value_of r) else None.
Proof.
  induction name as [|x name IH]; intros r Es En.
  - unfold found_in, defines, value_of. cbn [after_name].
    destruct r as [|c rest]; [reflexivity|]. cbn [strchr].
    destruct (c =? SEP) eqn:Ec; [reflexivity|].
    destruct (c =? NUL); [reflexivity|].
    now destruct (strchr rest SEP).
  - rewrite has_sep_cons in Es. rewrite has_nul_cons in En.
    apply orb_false_iff in Es as [Ex Es]. apply orb_false_iff in En as [Nx En].
    destruct r as [|y r'].
    + reflexivity.
    + unfold found_in. cbn [after_name].
      destruct (x =? y) eqn:Exy.
      * apply Z.eqb_eq in Exy. subst y.
        fold (found_in name r'). rewrite (IH r' Es En).
        unfold defines, value_of. cbn [strchr]. rewrite Ex, Nx.
        destruct (strchr r' SEP) as [m|]; cbn [option_map]; [|reflexivity].
        cbn [firstn str_eqb skipn]. now rewrite Z.eqb_refl.
      * unfold defines. cbn [strchr].
        destruct (y =? SEP); [reflexivity|].
        destruct (y =? NUL); [reflexivity|].
        destruct (strchr r' SEP) as [m|]; cbn [option_map]; [|reflexivity].
        cbn [firstn str_eqb]. rewrite Z.eqb_sym, Exy. reflexivity.
Qed.

Lemma getenv_empty env : getenv env [] = None.
Proof. now destruct env. Qed.

(** [getenv] on a name without ['=']: record by record, by the variable
    each record defines. *)
Lemma getenv_cons r env name :
  has_sep name = false -> has_nul name = false ->
  getenv (r :: env) name =
  if negb (match name with [] => true | _ => false end) && defines name r
  then Some (value_of r)
  else getenv env name.
Proof.
  intros Es En. cbn [getenv]. destruct name as [|x name].
  - now rewrite getenv_empty.
  - rewrite found_in_defines by assumption. cbn [negb andb].
    now destruct (defines (x :: name) r).
Qed.

Lemma valid_name_sep name : valid_name name = true -> has_sep name = false.
Proof.
  unfold valid_name. intros Ev. apply andb_true_iff in Ev as [_ Es].
  now rewrite negb_true_iff in Es.
Qed.

Lemma getenv_overwrite env name v :
  valid_name name = true -> has_nul name = false ->
  getenv (overwrite env name v) name = Some (c_str v).
Proof.
  intros Ev En. pose proof (valid_name_sep name Ev) as Es.
  unfold valid_name in Ev. apply andb_true_iff in Ev as [Ev1 _].
  induction env as [|r env IH]; cbn [overwrite].
  - rewrite getenv_cons by assumption.
    rewrite Ev1, defines_record, value_of_record by assumption. reflexivity.
  - destruct (defines name r) eqn:E.
    + rewrite getenv_cons by assumption.
      rewrite Ev1, defines_record, value_of_record by assumption.
      reflexivity.
    + rewrite getenv_cons by assumption. rewrite E, andb_false_r. apply IH.
Qed.

Lemma getenv_removed env name :
  has_sep name = false -> has_nul name = false ->
  getenv (filter (fun r => negb (defines name r)) env) name = None.
Proof.
  intros Es En. induction env as [|r env IH]; cbn [filter]; [reflexivity|].
  destruct (defines name r) eqn:E; cbn [negb]; [assumption|].
  rewrite getenv_cons by assumption. now rewrite E, andb_false_r.
Qed.

Lemma getenv_unsetenv env name :
  has_sep name = false -> has_nul name = false ->
  getenv (unsetenv env name) name = None.
Proof.
  intros Es En. unfold unsetenv. destruct (valid_name name) eqn:Ev.
  - now apply getenv_removed.
  - unfold valid_name in Ev. rewrite Es in Ev.
    destruct name; [apply getenv_empty | discriminate].
Qed.

Lemma getenv_undefined env name :
  has_sep name = false -> has_nul name = false ->
  forallb (fun r => negb (defines name r)) env = true ->
  getenv env name = None.
Proof.
  intros Es En. induction env as [|r env IH]; cbn [forallb]; [reflexivity|].
  intros E. apply andb_true_iff in E as [E1 E2].
  rewrite negb_true_iff in E1.
  rewrite getenv_cons by assumption. rewrite E1, andb_false_r. auto.
Qed.

Section Store.
Context `{HostStrings}.

Lemma posix_Set_Get environ k v :
  valid_name (c_str (Utf8Value k)) = true ->
  NewFromUtf8 (c_str (Utf8Value v)) = Some v ->
  fst (RealEnvStore_Get (RealEnvStore_Set environ k v) k) = Ok (Some v).
Proof.
  intros Ek Ev. unfold RealEnvStore_Get, RealEnvStore_Set, setenv.
  rewrite Ek, getenv_overwrite by auto using c_str_no_nul.
  unfold NewFromUtf8_n, window. simpl.
  now rewrite !c_str_idem, Ev.
Qed.

Lemma posix_Delete_Get environ k :
  has_sep (c_str (Utf8Value k)) = false ->
  fst (RealEnvStore_Get (RealEnvStore_Delete environ k) k) = Ok None.
Proof.
  intros Es. unfold RealEnvStore_Get, RealEnvStore_Delete.
  now rewrite getenv_unsetenv by auto using c_str_no_nul.
Qed.

Lemma Query_pure environ k : snd (RealEnvStore_Query environ k) = environ.
Proof.
  unfold RealEnvStore_Query. now destruct (getenv _ _).
Qed.

Lemma Query_absent environ k :
  has_sep (c_str (Utf8Value k)) = false ->
  forallb (fun r => negb (defines (c_str (Utf8Value k)) r)) environ = true ->
  fst (RealEnvStore_Query environ k) = -1.
Proof.
  intros Es E. unfold RealEnvStore_Query.
  now rewrite getenv_undefined by auto using c_str_no_nul.
Qed.

Lemma posix_Set_Query environ k v :
  valid_name (c_str (Utf8Value k)) = true ->
  fst (RealEnvStore_Query (RealEnvStore_Set environ k v) k) = 0.
Proof.
  intros Ek. unfold RealEnvStore_Query, RealEnvStore_Set, setenv.
  now rewrite Ek, getenv_overwrite by auto using c_str_no_nul.
Qed.
End Store.
End PosixFacts.

(** ** The UTF-16 platform *)

Module Win32Facts.
Import Win32.

Section Api.
Context `{NameFolding}.

Lemma name_eqb_refl a : name_eqb a a = true.
Proof. apply str_eqb_refl. Qed.

(** Folding never turns another character into a separator. *)
Lemma folded_sep a : forall b,
  map upcase a = map upcase b -> has_sep b = true -> has_sep a = true.
Proof.
  induction a as [|x a IH]; intros [|y b]; cbn [map]; try discriminate.
  intros [= E1 E2]. rewrite !has_sep_cons.
  destruct (y =? SEP) eqn:Ey; cbn [orb].
  - apply Z.eqb_eq in Ey. subst y. apply upcase_sep in E1. subst x.
    intros _. now rewrite Z.eqb_refl.
  - intros Eb. rewrite (IH b E2 Eb). apply orb_true_r.
Qed.

Lemma split_new_record c name v :
  has_nul (c :: name) = false -> has_sep name = false ->
  split_record ((c :: name) ++ SEP :: v) = Some (c :: name, c_str v).
Proof.
  rewrite has_nul_cons. intros En Es.
  apply orb_false_iff in En as [_ En].
  unfold split_record. cbn [app].
  rewrite strchr_record by assumption.
  rewrite firstn_app, Nat.sub_diag, firstn_all. cbn [firstn].
  rewrite app_nil_r.
  change (S (length name)) with (1 + length name)%nat.
  rewrite <- skipn_skipn, skipn_app, Nat.sub_diag, skipn_all.
  reflexivity.
Qed.

Lemma split_record_name r n v :
  split_record r = Some (n, v) ->
  exists c tl, n = c :: tl /\ has_sep tl = false.
Proof.
  unfold split_record. destruct r as [|c r']; [discriminate|].
  destruct (strchr r' SEP) as [m|] eqn:E; [|discriminate].
  intros [= <- <-]. exists c, (firstn m r'). split; [reflexivity|].
  now apply strchr_prefix.
Qed.

Lemma split_record_value r n v :
  split_record r = Some (n, v) -> has_nul v = false.
Proof.
  unfold split_record. destruct r as [|c r']; [discriminate|].
  destruct (strchr r' SEP) as [m|]; [|discriminate].
  intros [= <- <-]. apply c_str_no_nul.
Qed.

(** A name the platform refuses is the name of no record. *)
Lemma defines_invalid name r : valid_name name = false -> defines name r = false.
Proof.
  intros Ev. unfold defines.
  destruct (split_record r) as [[n v]|] eqn:E; [|reflexivity].
  destruct (split_record_name _ _ _ E) as (c & tl & -> & Etl).
  destruct (name_eqb (c :: tl) name) eqn:En; [|reflexivity].
  apply str_eqb_eq in En. destruct name as [|d rest]; [discriminate|].
  cbn [map] in En. injection En as _ En.
  cbn [valid_name] in Ev. rewrite negb_false_iff in Ev.
  rewrite (folded_sep _ _ En Ev) in Etl. discriminate.
Qed.

Lemma lookup_invalid blk name : valid_name name = false -> lookup blk name = None.
Proof.
  intros Ev. induction blk as [|r blk IH]; cbn [lookup]; [reflexivity|].
  now rewrite defines_invalid.
Qed.

Lemma lookup_overwrite blk name v :
  valid_name name = true -> deref name <> SEP -> has_nul name = false ->
  lookup (overwrite blk name v) name = Some (c_str v).
Proof.
  intros Ev Ed En. destruct name as [|c name]; [discriminate|].
  cbn [valid_name] in Ev. rewrite negb_true_iff in Ev.
  assert (Enew : split_record ((c :: name) ++ SEP :: v)
                 = Some (c :: name, c_str v))
    by now apply split_new_record.
  assert (Edef : defines (c :: name) ((c :: name) ++ SEP :: v) = true)
    by (unfold defines; rewrite Enew; apply name_eqb_refl).
  induction blk as [|r blk IH]; cbn [overwrite lookup].
  - now rewrite Edef, Enew.
  - destruct (defines (c :: name) r) eqn:E; cbn [lookup].
    + now rewrite Edef, Enew.
    + now rewrite E.
Qed.

Lemma lookup_removed blk name :
  lookup (filter (fun r => negb (defines name r)) blk) name = None.
Proof.
  induction blk as [|r blk IH]; cbn [filter lookup]; [reflexivity|].
  destruct (defines name r) eqn:E; cbn [negb lookup]; [assumption|].
  now rewrite E.
Qed.

Lemma lookup_undefined blk name :
  forallb (fun r => negb (defines name r)) blk = true ->
  lookup blk name = None.
Proof.
  induction blk as [|r blk IH]; cbn [forallb lookup]; [reflexivity|].
  intros E. apply andb_true_iff in E as [E1 E2].
  rewrite negb_true_iff in E1. rewrite E1. auto.
Qed.

Lemma lookup_no_nul blk name v : lookup blk name = Some v -> has_nul v = false.
Proof.
  induction blk as [|r blk IH]; cbn [lookup]; [discriminate|].
  destruct (defines name r); [|assumption].
  destruct (split_record r) as [[n w]|] eqn:E; [|discriminate].
  intros [= <-]. eapply split_record_value, E.
Qed.
End Api.

Section Store.
Context `{HostStrings} `{NameFolding}.

(** [Get] in terms of what the block holds for the key. *)
Lemma Get_lookup st k :
  fst (RealEnvStore_Get st k) =
  match lookup (block st) (c_str k) with
  | Some v =>
      if Z.of_nat (length v) <? buffer_size then
        match NewFromTwoByte v with
        | Some rc => Ok (Some rc)
        | None => Thrown ERR_STRING_TOO_LONG
        end
      else Ok None
  | None => Ok None
  end.
Proof.
  unfold RealEnvStore_Get, GetEnvironmentVariableW, TwoByteValue.
  cbn [block SetLastError].
  destruct (lookup (block st) (c_str k)) as [v|] eqn:E.
  - unfold buffer_size.
    destruct (Z.of_nat (length v) <? 32767) eqn:Efit.
    + cbn [GetLastError last_error]. unfold ERROR_SUCCESS.
      rewrite Z.eqb_refl, orb_true_r, Efit. cbn [andb].
      unfold NewFromTwoByte_n, window. cbn [Z.ltb Z.compare].
      rewrite (c_str_fixed v) by (eapply lookup_no_nul; eassumption).
      now destruct (NewFromTwoByte v).
    + apply Z.ltb_ge in Efit.
      replace (Z.of_nat (length v) + 1 <? 32767) with false
        by (symmetry; apply Z.ltb_ge; lia).
      now rewrite andb_false_r.
  - reflexivity.
Qed.

(** [Query] in terms of what the block holds for the key. *)
Lemma Query_lookup st k :
  fst (RealEnvStore_Query st k) =
  match lookup (block st) (c_str k) with
  | Some _ =>
      if deref k =? SEP then Z.lor (Z.lor ReadOnly DontDelete) DontEnum
      else 0
  | None => -1
  end.
Proof.
  unfold RealEnvStore_Query, GetEnvironmentVariableW, TwoByteValue.
  cbn [block SetLastError].
  destruct (lookup (block st) (c_str k)) as [v|] eqn:E.
  - replace (Z.of_nat (length v) <? 0) with false
      by (symmetry; apply Z.ltb_ge; lia).
    replace (Z.of_nat (length v) + 1 >? 0) with true
      by (symmetry; apply Z.gtb_lt; lia).
    cbn [orb]. now destruct (deref k =? SEP).
  - reflexivity.
Qed.

Lemma Query_block st k : block (snd (RealEnvStore_Query st k)) = block st.
Proof.
  unfold RealEnvStore_Query, GetEnvironmentVariableW.
  cbn [block SetLastError].
  destruct (lookup _ _) as [v|]; [destruct (_ <? _)|];
    cbn [GetLastError last_error SetLastError block];
    repeat match goal with
           | |- context [if ?b then _ else _] => destruct b
           end; reflexivity.
Qed.

Lemma Set_block st k v :
  deref k <> SEP -> valid_name (c_str k) = true ->
  block (RealEnvStore_Set st k v) = overwrite (block st) (c_str k) (c_str v).
Proof.
  intros Ed Ev. unfold RealEnvStore_Set, SetEnvironmentVariableW, TwoByteValue.
  apply Z.eqb_neq in Ed. rewrite Ed, Ev. reflexivity.
Qed.

Lemma Set_hidden st k v : deref k = SEP -> RealEnvStore_Set st k v = st.
Proof.
  intros Ed. unfold RealEnvStore_Set, TwoByteValue.
  apply Z.eqb_eq in Ed. now rewrite Ed.
Qed.

Lemma Delete_lookup st k :
  lookup (block (RealEnvStore_Delete st k)) (c_str k) = None.
Proof.
  unfold RealEnvStore_Delete, SetEnvironmentVariableW, TwoByteValue.
  destruct (valid_name (c_str k)) eqn:Ev; cbn [snd block SetLastError].
  - apply lookup_removed.
  - now apply lookup_invalid.
Qed.

Lemma deref_c_str k : deref (c_str k) = deref k.
Proof.
  unfold c_str. destruct k as [|c k]; [reflexivity|].
  cbn [strlen]. destruct (c =? NUL) eqn:E; [|reflexivity].
  apply Z.eqb_eq in E. now subst c.
Qed.

Lemma win32_Set_Get st k v :
  deref k <> SEP -> valid_name (c_str k) = true ->
  Z.of_nat (length (c_str v)) < buffer_size ->
  NewFromTwoByte (c_str v) = Some v ->
  fst (RealEnvStore_Get (RealEnvStore_Set st k v) k) = Ok (Some v).
Proof.
  intros Ed Ev Efit Enc.
  rewrite Get_lookup, Set_block, lookup_overwrite; auto using c_str_no_nul.
  - apply Z.ltb_lt in Efit. now rewrite c_str_idem, Efit, Enc.
  - now rewrite deref_c_str.
Qed.

Lemma win32_Set_Query st k v :
  deref k <> SEP -> valid_name (c_str k) = true ->
  fst (RealEnvStore_Query (RealEnvStore_Set st k v) k) = 0.
Proof.
  intros Ed Ev.
  rewrite Query_lookup, Set_block, lookup_overwrite; auto using c_str_no_nul.
  - apply Z.eqb_neq in Ed. now rewrite Ed.
  - now rewrite deref_c_str.
Qed.

Lemma win32_Delete_Get st k :
  fst (RealEnvStore_Get (RealEnvStore_Delete st k) k) = Ok None.
Proof. now rewrite Get_lookup, Delete_lookup. Qed.
End Store.
End Win32Facts.

(** ** Enumeration *)

Lemma build_keys_In decode failure texts :
  is_failure failure ->
  forall ks t, build_keys decode failure texts = Ok ks -> In t texts ->
  exists k, decode t = Some k /\ In k ks.
Proof.
  intros Hf. induction texts as [|u us IH]; intros ks t E Hin; [destruct Hin|].
  cbn [build_keys] in E.
  destruct (decode u) as [k|] eqn:Eu; [|now apply Hf in E].
  destruct (build_keys decode failure us) as [ks'| |] eqn:Eus; try discriminate.
  injection E as <-. destruct Hin as [<- | Hin].
  - exists k. split; [assumption | now left].
  - destruct (IH ks' t eq_refl Hin) as (k' & Ek' & Hk').
    exists k'. split; [assumption | now right].
Qed.

Lemma strlen_le p : (strlen p <= length p)%nat.
Proof.
  induction p as [|c p IH]; cbn [strlen length]; [lia|].
  destruct (c =? NUL); lia.
Qed.

(** With records shorter than 2^31 units, the length handed to the
    string constructor selects the key text. *)
Lemma window_key_text r :
  Z.of_nat (length r) < 2 ^ 31 ->
  window r (to_int (match strchr r SEP with
                    | Some s => Z.of_nat s
                    | None => Z.of_nat (strlen r)
                    end)) = key_text r.
Proof.
  intros Hlen. unfold window, key_text.
  destruct (strchr r SEP) as [n|] eqn:E.
  - apply strchr_bound in E.
    rewrite to_int_small by lia.
    replace (Z.of_nat n <? 0) with false by (symmetry; apply Z.ltb_ge; lia).
    now rewrite Nat2Z.id.
  - pose proof (strlen_le r).
    rewrite to_int_small by lia.
    replace (Z.of_nat (strlen r) <? 0) with false
      by (symmetry; apply Z.ltb_ge; lia).
    now rewrite Nat2Z.id.
Qed.

Module PosixEnumerate.
Import Posix.
Section Store.
Context `{HostStrings}.

Lemma Enumerate_loop_keys environ :
  forallb short environ = true ->
  Enumerate_loop environ =
  build_keys NewFromUtf8 (Fatal ToLocalChecked_empty) (map key_text environ).
Proof.
  induction environ as [|r environ IH]; [reflexivity|].
  cbn [forallb]. intros Hs. apply andb_true_iff in Hs as [Hr Hs].
  apply Z.ltb_lt in Hr.
  cbn [Enumerate_loop map build_keys].
  unfold NewFromUtf8_n, key_length.
  now rewrite window_key_text, IH by assumption.
Qed.
End Store.
End PosixEnumerate.

Module Win32Enumerate.
Import Win32 Block.

Lemma strlen_record r rest :
  has_nul r = false -> strlen (r ++ NUL :: rest) = length r.
Proof.
  induction r as [|c r IH]; intros En.
  - cbn [app strlen]. now rewrite Z.eqb_refl.
  - rewrite has_nul_cons in En. apply orb_false_iff in En as [E1 E2].
    cbn [app strlen length]. now rewrite E1, IH.
Qed.

Lemma strchr_in_record r rest :
  has_nul r = false -> strchr (r ++ NUL :: rest) SEP = strchr r SEP.
Proof.
  induction r as [|c r IH]; intros En.
  - reflexivity.
  - rewrite has_nul_cons in En. apply orb_false_iff in En as [E1 E2].
    cbn [app strchr]. now rewrite E1, IH.
Qed.

Lemma has_nul_skipn n : forall r, has_nul r = false -> has_nul (skipn n r) = false.
Proof.
  induction n as [|n IH]; intros [|c r] En; try assumption.
  rewrite has_nul_cons in En. apply orb_false_iff in En as [_ En].
  cbn [skipn]. auto.
Qed.

Lemma skipn_record r rest : skipn (length r + 1) (r ++ NUL :: rest) = rest.
Proof.
  rewrite Nat.add_comm, <- skipn_skipn, skipn_app, Nat.sub_diag, skipn_all.
  reflexivity.
Qed.

(** Where the walk resumes after a key that ends [s] units into the
    record. *)
Lemma resume_after r rest s :
  has_nul r = false -> (s <= length r)%nat ->
  skipn (s + strlen (skipn s (r ++ NUL :: rest)) + 1) (r ++ NUL :: rest) = rest.
Proof.
  intros En Hs.
  rewrite (skipn_app s r). replace (s - length r)%nat with O by lia.
  cbn [skipn]. rewrite strlen_record by now apply has_nul_skipn.
  rewrite length_skipn. replace (s + (length r - s))%nat with (length r) by lia.
  apply skipn_record.
Qed.

Section Store.
Context `{HostStrings} `{NameFolding}.

(** One turn of the loop on a well-formed record. *)
Lemma walk_record r rest env_v :
  well_formed r = true ->
  Enumerate_walk (r ++ NUL :: rest) env_v =
  if hidden r then Enumerate_walk rest env_v
  else match NewFromTwoByte (key_text r) with
       | None => Thrown ERR_STRING_TOO_LONG
       | Some rc => Enumerate_walk rest (env_v ++ [rc])
       end.
Proof.
  unfold well_formed, short. intros Hwf.
  apply andb_true_iff in Hwf as [Hwf Hlen].
  apply andb_true_iff in Hwf as [Hne En].
  rewrite negb_true_iff in En. apply Z.ltb_lt in Hlen.
  destruct r as [|c q]; [discriminate|]. clear Hne.
  pose proof En as En'. rewrite has_nul_cons in En'.
  apply orb_false_iff in En' as [Ec _].
  rewrite Enumerate_walk_equation.
  change ((c :: q) ++ NUL :: rest) with (c :: (q ++ NUL :: rest)).
  cbv iota. rewrite Ec.
  change (c :: (q ++ NUL :: rest)) with ((c :: q) ++ NUL :: rest).
  unfold hidden. cbn [deref hd].
  destruct (c =? SEP) eqn:Es.
  - rewrite strlen_record by assumption. now rewrite skipn_record.
  - unfold key_end.
    rewrite strchr_in_record, strlen_record by assumption.
    unfold NewFromTwoByte_n.
    assert (Hs : (match strchr (c :: q) SEP with
                  | Some n => n
                  | None => length (c :: q)
                  end <= length (c :: q))%nat).
    { destruct (strchr (c :: q) SEP) as [n|] eqn:E; [|lia].
      apply strchr_bound in E. lia. }
    assert (Hw : window ((c :: q) ++ NUL :: rest)
                   (to_int (Z.of_nat (match strchr (c :: q) SEP with
                                      | Some n => n
                                      | None => length (c :: q)
                                      end))) = key_text (c :: q)).
    { rewrite <- (window_key_text (c :: q)) by assumption.
      rewrite (strlen_no_nul (c :: q)) by assumption.
      unfold window.
      replace (match strchr (c :: q) SEP with
               | Some s => Z.of_nat s
               | None => Z.of_nat (length (c :: q))
               end)
        with (Z.of_nat (match strchr (c :: q) SEP with
                        | Some n => n
                        | None => length (c :: q)
                        end))
        by now destruct (strchr (c :: q) SEP).
      rewrite to_int_small by lia.
      replace (Z.of_nat _ <? 0) with false by (symmetry; apply Z.ltb_ge; lia).
      rewrite Nat2Z.id, firstn_app.
      replace (_ - length (c :: q))%nat with O by lia.
      cbn [firstn]. now rewrite app_nil_r. }
    rewrite Hw. destruct (NewFromTwoByte (key_text (c :: q))); [|reflexivity].
    now rewrite resume_after.
Qed.

Lemma walk_end env_v : Enumerate_walk [NUL] env_v = Ok env_v.
Proof. now rewrite Enumerate_walk_equation. Qed.

(** The walk over a whole block, from any point on. *)
Lemma walk_block blk : forall env_v,
  forallb well_formed blk = true ->
  Enumerate_walk (flat_map (fun r => r ++ [NUL]) blk ++ [NUL]) env_v =
  match build_keys NewFromTwoByte (Thrown ERR_STRING_TOO_LONG)
          (map key_text (filter (fun r => negb (hidden r)) blk)) with
  | Ok ks => Ok (env_v ++ ks)
  | other => other
  end.
Proof.
  induction blk as [|r blk IH]; intros env_v Hwf.
  - cbn. rewrite app_nil_r. apply walk_end.
  - cbn [forallb] in Hwf. apply andb_true_iff in Hwf as [Hr Hblk].
    cbn [flat_map filter]. rewrite <- !app_assoc. cbn [app].
    rewrite walk_record by assumption.
    destruct (hidden r); cbn [negb]; [now apply IH|].
    cbn [map build_keys].
    destruct (NewFromTwoByte (key_text r)) as [rc|]; [|reflexivity].
    rewrite IH by assumption.
    destruct (build_keys _ _ _); try reflexivity.
    now rewrite <- app_assoc.
Qed.

Lemma Enumerate_keys st :
  forallb well_formed (block st) = true ->
  fst (RealEnvStore_Enumerate st) =
  build_keys NewFromTwoByte (Thrown ERR_STRING_TOO_LONG)
    (map key_text (filter (fun r => negb (hidden r)) (block st))).
Proof.
  intros Hwf. unfold RealEnvStore_Enumerate, GetEnvironmentStringsW.
  cbn [fst]. rewrite walk_block by assumption.
  now destruct (build_keys _ _ _).
Qed.

(** Whatever the buffer holds, no key the walk pushes starts with
    ['=']. *)
Lemma walk_visible p env_v :
  forall ks, Enumerate_walk p env_v = Ok ks ->
  Forall (fun k => deref k <> SEP) env_v ->
  Forall (fun k => deref k <> SEP) ks.
Proof.
  functional induction (Enumerate_walk p env_v); intros ks E Hacc.
  - now injection E as <-.
  - now injection E as <-.
  - now apply IHo.
  - discriminate.
  - apply IHo; [assumption|].
    apply Forall_app. split; [assumption|].
    constructor; [|constructor].
    match goal with
    | Erc : NewFromTwoByte_n _ _ = Some _ |- _ =>
        apply NewFromTwoByte_exact in Erc; subst rc
    end.
    match goal with
    | Ec : (c =? NUL) = false, Es : (c =? SEP) = false |- _ =>
        unfold window, c_str; cbn [strlen]; rewrite Ec;
        apply Z.eqb_neq in Es
    end.
    destruct (to_int (Z.of_nat (key_end (c :: q))) <? 0);
      cbn [firstn deref hd]; [assumption|].
    destruct (Z.to_nat (to_int (Z.of_nat (key_end (c :: q)))));
      cbn [firstn deref hd]; [discriminate | assumption].
Qed.
End Store.
End Win32Enumerate.

(** ** The interceptors *)

Module FacadeFacts.
Import Facade Writes.

Section Interceptors.
Context {S : Type} `{KVStore S} `{HostValues}.

Ltac setter :=
  unfold EnvSetter, EmitProcessEnvWarning, ProcessEmitDeprecationWarning,
    after_call;
  repeat match goal with
         | |- context [if ?b then _ else _] => destruct b eqn:?
         | |- context [match ToString ?v with _ => _ end] =>
             destruct (ToString v) eqn:?
         end;
  cbn [fst snd envvars pending_deprecation emit_env_nonstring_warning_
       calls notices] in *.

(** Once the warning is marked as emitted it stays so. *)
Lemma EnvSetter_flag_off name value env :
  emit_env_nonstring_warning_ env = false ->
  emit_env_nonstring_warning_ (snd (EnvSetter name value env)) = false.
Proof. setter; congruence. Qed.

(** A qualifying write marks it, whatever else happens. *)
Lemma EnvSetter_flag_used name value env :
  qualifies env value = true ->
  emit_env_nonstring_warning_ (snd (EnvSetter name value env)) = false.
Proof. unfold qualifies. intros Q. setter; congruence. Qed.

Lemma EnvSetter_quiet name value env :
  emit_env_nonstring_warning_ env = false ->
  notices (snd (EnvSetter name value env)) = notices env.
Proof. setter; congruence. Qed.

Lemma EnvSetter_notices name value env :
  notices (snd (EnvSetter name value env)) =
  if qualifies env value && emit_env_nonstring_warning_ env
  then notices env ++ [mkNotice DEP0104_message "DEP0104"%string]
  else notices env.
Proof.
  unfold qualifies.
  destruct (pending_deprecation env && negb (IsString value)
            && negb (IsNumber value) && negb (IsBoolean value)) eqn:Q,
           (emit_env_nonstring_warning_ env) eqn:F;
    unfold EnvSetter, EmitProcessEnvWarning, ProcessEmitDeprecationWarning,
      after_call; rewrite Q; cbn [andb]; try rewrite F;
    repeat match goal with
           | |- context [if ?b then _ else _] => destruct b
           | |- context [match ToString ?v with _ => _ end] =>
               destruct (ToString v)
           end; reflexivity.
Qed.

Lemma writes_flag_off ws : forall env,
  emit_env_nonstring_warning_ env = false ->
  emit_env_nonstring_warning_ (writes ws env) = false
  /\ notices (writes ws env) = notices env.
Proof.
  induction ws as [|[name value] ws IH]; intros env F; [now split|].
  cbn [writes].
  destruct (IH (snd (EnvSetter name value env))
              (EnvSetter_flag_off name value env F)) as [IH1 IH2].
  split; [assumption|]. rewrite IH2. now apply EnvSetter_quiet.
Qed.

Lemma writes_notices ws : forall env,
  (length (notices (writes ws env)) <= length (notices env) + 1)%nat.
Proof.
  induction ws as [|[name value] ws IH]; intros env; cbn [writes]; [lia|].
  destruct (qualifies env value && emit_env_nonstring_warning_ env) eqn:Q.
  - apply andb_true_iff in Q as [Q _].
    destruct (writes_flag_off ws (snd (EnvSetter name value env))
                (EnvSetter_flag_used name value env Q)) as [_ ->].
    rewrite EnvSetter_notices.
    destruct (_ && _); rewrite ?length_app; cbn [length]; lia.
  - etransitivity; [apply IH|].
    now rewrite EnvSetter_notices, Q.
Qed.

(** What a write leaves in the store: nothing, or the string forms of
    its two arguments, handed to [Set]. *)
Lemma EnvSetter_store name value env :
  (envvars (snd (EnvSetter name value env)) = envvars env
   /\ calls (snd (EnvSetter name value env)) = calls env
   /\ fst (EnvSetter name value env) = Thrown JSError)
  \/ (exists key value_string,
        ToString name = Some key /\ ToString value = Some value_string
        /\ envvars (snd (EnvSetter name value env))
           = kv_Set (envvars env) key value_string
        /\ calls (snd (EnvSetter name value env))
           = calls env ++ [CallSet key value_string]
        /\ fst (EnvSetter name value env) = Ok (Some value)).
Proof.
  setter; try (left; repeat split; reflexivity);
    right; eexists _, _; repeat split; reflexivity.
Qed.

Lemma EnvSetter_completes name value env :
  notification_fails env value = false ->
  forall key value_string,
  ToString name = Some key -> ToString value = Some value_string ->
  fst (EnvSetter name value env) = Ok (Some value).
Proof.
  unfold notification_fails, qualifies. intros N key vs Ek Ev.
  unfold EnvSetter, EmitProcessEnvWarning, ProcessEmitDeprecationWarning,
    after_call.
  destruct (pending_deprecation env && negb (IsString value)
            && negb (IsNumber value) && negb (IsBoolean value));
    cbn [andb] in N |- *.
  - destruct (emit_env_nonstring_warning_ env); cbn [andb] in N |- *.
    + rewrite negb_false_iff in N. cbn [notices]. rewrite N, Ek, Ev.
      reflexivity.
    + now rewrite Ek, Ev.
  - now rewrite Ek, Ev.
Qed.

Lemma EnvSetter_aborts name value env :
  notification_fails env value = true \/ ToString name = None
  \/ ToString value = None ->
  fst (EnvSetter name value env) = Thrown JSError.
Proof.
  unfold notification_fails, qualifies. intros D.
  unfold EnvSetter, EmitProcessEnvWarning, ProcessEmitDeprecationWarning,
    after_call.
  destruct (pending_deprecation env && negb (IsString value)
            && negb (IsNumber value) && negb (IsBoolean value));
    cbn [andb] in D |- *.
  - destruct (emit_env_nonstring_warning_ env); cbn [andb notices] in D |- *.
    + destruct (notice_delivered (length (notices env)));
        cbn [negb] in D |- *; [|reflexivity].
      destruct D as [D | [-> | D]]; [discriminate | reflexivity |].
      rewrite D. now destruct (ToString name).
    + destruct D as [D | [-> | D]]; [discriminate | reflexivity |].
      rewrite D. now destruct (ToString name).
  - destruct D as [D | [-> | D]]; [discriminate | reflexivity |].
    rewrite D. now destruct (ToString name).
Qed.
End Interceptors.
End FacadeFacts.

(** * The claims *)

Import ReferenceHost Samples.

(** ** C1: Set followed by Get *)

(** C1, as the spec states it, fails on a hidden key: on the UTF-16
    platform [Set("=C:", "bar")] is skipped by the guard on the first
    character, so the following [Get("=C:")] finds nothing although both
    strings convert without loss. *)
Lemma Set_then_Get_hidden_key :
  NewFromTwoByte (c_str (TwoByteValue drive)) = Some drive
  /\ NewFromTwoByte (c_str (TwoByteValue bar)) = Some bar
  /\ fst (Win32.RealEnvStore_Get
            (Win32.RealEnvStore_Set (Win32.mkOs [] 0) drive bar) drive)
     = Ok None
  /\ fst (Win32.RealEnvStore_Get
            (Win32.RealEnvStore_Set (Win32.mkOs [] 0) drive bar) drive)
     <> Ok (Some bar).
Proof.
  split; [|split; [|split]]; try reflexivity. vm_compute. discriminate.
Qed.

(** The byte-string platform refuses a name that holds a separator. *)
Example Set_then_Get_separator_in_key :
  fst (Posix.RealEnvStore_Get
         (Posix.RealEnvStore_Set [] (units "A=B") bar)
         (units "A=B")) = Ok None.
Proof. reflexivity. Qed.

(** C1 (amended): for every key the platform accepts as a variable name
    (not empty, no ['='], read up to its first NUL) and every value whose
    native form converts back to the value itself (and, on the UTF-16
    platform, fits the 32767-unit buffer with its terminator), [Set(k, v)]
    followed by [Get(k)] returns exactly [v]. *)
Theorem Set_then_Get `{HostStrings} `{NameFolding} :
  (forall environ k v,
      Posix.valid_name (c_str (Utf8Value k)) = true ->
      NewFromUtf8 (c_str (Utf8Value v)) = Some v ->
      fst (Posix.RealEnvStore_Get (Posix.RealEnvStore_Set environ k v) k)
      = Ok (Some v))
  /\ (forall st k v,
      deref (TwoByteValue k) <> SEP ->
      Win32.valid_name (c_str (TwoByteValue k)) = true ->
      Z.of_nat (length (c_str (TwoByteValue v))) < Win32.buffer_size ->
      NewFromTwoByte (c_str (TwoByteValue v)) = Some v ->
      fst (Win32.RealEnvStore_Get (Win32.RealEnvStore_Set st k v) k)
      = Ok (Some v)).
Proof.
  split.
  - intros. now apply PosixFacts.posix_Set_Get.
  - intros. now apply Win32Facts.win32_Set_Get.
Qed.

(** The hypotheses of C1 (amended) hold for [FOO] and [bar] on both
    platforms. *)
Lemma Set_then_Get_witness :
  fst (Posix.RealEnvStore_Get (Posix.RealEnvStore_Set inherited FOO bar) FOO)
  = Ok (Some bar)
  /\ fst (Win32.RealEnvStore_Get (Win32.RealEnvStore_Set started FOO bar) FOO)
     = Ok (Some bar).
Proof.
  split.
  - apply (proj1 Set_then_Get); reflexivity.
  - apply (proj2 Set_then_Get); try reflexivity. vm_compute. discriminate.
Defined.

(** ** C2: hidden entries *)

(** C2, as the spec states it, fails twice.  A key that starts with
    ['='] and has no entry in the block is reported absent by [Query], not
    present; and [Delete] makes the removal call for any key, so a hidden
    entry that is present is removed. *)
Lemma hidden_key_absent_or_removed :
  deref (TwoByteValue (units "=Z:")) = SEP
  /\ fst (Win32.RealEnvStore_Query started (units "=Z:")) = -1
  /\ Win32.lookup (Win32.block started) (c_str (TwoByteValue drive))
     = Some (units "C:\node")
  /\ Win32.lookup (Win32.block (Win32.RealEnvStore_Delete started drive))
       (c_str (TwoByteValue drive)) = None
  /\ Win32.block (Win32.RealEnvStore_Delete started drive)
     <> Win32.block started.
Proof.
  split; [|split; [|split; [|split]]]; try reflexivity.
  vm_compute. discriminate.
Qed.

(** C2 (amended): on the platform with hidden entries, for every key
    whose first character is ['=']: [Set] on it leaves the environment
    block (and the whole OS state) unchanged, the key never appears in
    [Enumerate]'s result, and [Query] on it reports the read-only/hidden
    flag combination when the entry is present in the block, the "not
    present" sentinel when it is not. *)
Theorem hidden_entry `{HostStrings} `{NameFolding} st k :
  deref (TwoByteValue k) = SEP ->
  (forall v, Win32.RealEnvStore_Set st k v = st)
  /\ (forall ks, fst (Win32.RealEnvStore_Enumerate st) = Ok ks -> ~ In k ks)
  /\ (forall v,
        Win32.lookup (Win32.block st) (c_str (TwoByteValue k)) = Some v ->
        fst (Win32.RealEnvStore_Query st k)
        = Z.lor (Z.lor ReadOnly DontDelete) DontEnum
        /\ fst (Win32.RealEnvStore_Query st k) <> -1)
  /\ (Win32.lookup (Win32.block st) (c_str (TwoByteValue k)) = None ->
      fst (Win32.RealEnvStore_Query st k) = -1).
Proof.
  intros Hk. unfold TwoByteValue in *. split; [|split; [|split]].
  - intros v. now apply Win32Facts.Set_hidden.
  - intros ks E Hin.
    unfold Win32.RealEnvStore_Enumerate, Win32.GetEnvironmentStringsW in E.
    cbn [fst] in E.
    pose proof (Win32Enumerate.walk_visible _ _ _ E (Forall_nil _)) as V.
    rewrite Forall_forall in V. now apply (V k Hin).
  - intros v L. rewrite Win32Facts.Query_lookup, L.
    apply Z.eqb_eq in Hk. rewrite Hk. split; [reflexivity | discriminate].
  - intros L. now rewrite Win32Facts.Query_lookup, L.
Qed.

(** The hypothesis of C2 (amended) holds for the key ["=C:"]. *)
Lemma hidden_entry_witness :
  deref (TwoByteValue drive) = SEP
  /\ Win32.RealEnvStore_Set started drive bar = started
  /\ fst (Win32.RealEnvStore_Query started drive)
     = Z.lor (Z.lor ReadOnly DontDelete) DontEnum.
Proof.
  split; [reflexivity|]. split.
  - apply (proj1 (hidden_entry started drive eq_refl)).
  - eapply (proj1 (proj2 (proj2 (hidden_entry started drive eq_refl)))).
    reflexivity.
Defined.

(** ** C3: the buffer ceiling *)

Lemma long_value_length : Z.of_nat (length long_value) = 32767.
Proof.
  unfold long_value. rewrite repeat_length. now apply Z2Nat.id.
Qed.

Lemma long_value_stored :
  Win32.lookup (Win32.block crowded) (c_str (TwoByteValue (units "A")))
  = Some long_value.
Proof.
  assert (En : has_nul long_value = false).
  { unfold long_value. induction (Z.to_nat 32767) as [|n IH]; [reflexivity|].
    cbn [repeat]. now rewrite has_nul_cons, IH. }
  unfold crowded. cbn [Win32.block Win32.lookup].
  change (c_str (TwoByteValue (units "A"))) with [65].
  change (units "A") with [65].
  unfold Win32.defines.
  rewrite (Win32Facts.split_new_record 65 [] long_value) by reflexivity.
  rewrite Win32Facts.name_eqb_refl. now rewrite c_str_fixed.
Qed.

(** C3, as the spec states it, fails: with a stored value of 32767 code
    units (32768 with its terminator) [Get] raises nothing and answers
    "no value". *)
Lemma Get_long_value_reads_absent :
  Win32.lookup (Win32.block crowded) (c_str (TwoByteValue (units "A")))
  = Some long_value
  /\ Z.of_nat (length long_value) + 1 > Win32.buffer_size
  /\ fst (Win32.RealEnvStore_Get crowded (units "A")) = Ok None
  /\ fst (Win32.RealEnvStore_Get crowded (units "A"))
     <> Thrown ERR_STRING_TOO_LONG.
Proof.
  assert (E : fst (Win32.RealEnvStore_Get crowded (units "A")) = Ok None).
  { rewrite Win32Facts.Get_lookup.
    change (c_str (units "A")) with (c_str (TwoByteValue (units "A"))).
    rewrite long_value_stored, long_value_length. reflexivity. }
  split; [|split; [|split]].
  - apply long_value_stored.
  - rewrite long_value_length. reflexivity.
  - exact E.
  - rewrite E. discriminate.
Qed.

(** C3 (amended): on the UTF-16 platform, when the stored value does not
    fit the 32767-unit buffer together with its terminator, [Get] returns
    "no value" and raises nothing; when it fits, [Get] returns the string
    the host builds from the whole value, and fails with the
    string-too-long error exactly when the host cannot build it.  A value
    that is returned is the whole stored value, never a truncation. *)
Theorem Get_buffer_ceiling `{HostStrings} `{NameFolding} st k v :
  Win32.lookup (Win32.block st) (c_str (TwoByteValue k)) = Some v ->
  (Win32.buffer_size <= Z.of_nat (length v) ->
     fst (Win32.RealEnvStore_Get st k) = Ok None)
  /\ (Z.of_nat (length v) < Win32.buffer_size ->
        fst (Win32.RealEnvStore_Get st k)
        = match NewFromTwoByte v with
          | Some rc => Ok (Some rc)
          | None => Thrown ERR_STRING_TOO_LONG
          end)
  /\ (forall rc, fst (Win32.RealEnvStore_Get st k) = Ok (Some rc) -> rc = v).
Proof.
  intros L. unfold TwoByteValue in L.
  rewrite Win32Facts.Get_lookup, L. repeat split.
  - intros Hbig. apply Z.ltb_ge in Hbig. now rewrite Hbig.
  - intros Hfit. apply Z.ltb_lt in Hfit. now rewrite Hfit.
  - intros rc. destruct (_ <? _); [|discriminate].
    destruct (NewFromTwoByte v) as [s|] eqn:E; [|discriminate].
    intros [= <-]. now apply NewFromTwoByte_exact.
Qed.

(** The hypotheses of C3 (amended) hold for [PATH] in a started
    process. *)
Lemma Get_buffer_ceiling_witness :
  Win32.lookup (Win32.block started) (c_str (TwoByteValue (units "PATH")))
  = Some (units "C:\bin")
  /\ fst (Win32.RealEnvStore_Get started (units "PATH"))
     = Ok (Some (units "C:\bin")).
Proof.
  assert (L : Win32.lookup (Win32.block started)
                (c_str (TwoByteValue (units "PATH")))
              = Some (units "C:\bin")) by reflexivity.
  split; [exact L|].
  rewrite (proj1 (proj2 (Get_buffer_ceiling started _ _ L))) by reflexivity.
  reflexivity.
Defined.

(** ** C4: a failed deprecation notice aborts the write *)

(** C4: under the deprecation-pending configuration, for a value that is
    neither a string, a number nor a boolean, when the notice is due and
    the notification collaborator signals failure, the write ends with the
    exception pending and the store untouched: no call at all reaches the
    store, [Set] in particular, and the notice is the only thing the
    execution produced. *)
Theorem failed_notice_aborts_write {S : Type} `{KVStore S} `{HostValues}
    (name value : Value) (env : Environment S) :
  pending_deprecation env = true ->
  IsString value = false -> IsNumber value = false -> IsBoolean value = false ->
  emit_env_nonstring_warning_ env = true ->
  notice_delivered (length (notices env)) = false ->
  fst (Facade.EnvSetter name value env) = Thrown JSError
  /\ envvars (snd (Facade.EnvSetter name value env)) = envvars env
  /\ calls (snd (Facade.EnvSetter name value env)) = calls env
  /\ (forall key value_string,
        ~ In (CallSet key value_string)
             (skipn (length (calls env))
                (calls (snd (Facade.EnvSetter name value env)))))
  /\ notices (snd (Facade.EnvSetter name value env))
     = notices env ++ [mkNotice Facade.DEP0104_message "DEP0104"%string].
Proof.
  intros P Es En Eb F D.
  unfold Facade.EnvSetter, Facade.EmitProcessEnvWarning,
    Facade.ProcessEmitDeprecationWarning.
  rewrite P, Es, En, Eb. cbn [negb andb]. rewrite F. cbn [notices].
  rewrite D. cbn [fst snd envvars calls notices].
  repeat split. intros key vs. now rewrite skipn_all.
Qed.

(** The hypotheses of C4 hold for an object written at start-up when the
    collaborator fails. *)
Lemma failed_notice_aborts_write_witness :
  fst (@Facade.EnvSetter _ Posix.RealEnvStore failing_values
         (VString FOO) (VObject 1) (fresh inherited true))
  = Thrown JSError
  /\ envvars (snd (@Facade.EnvSetter _ Posix.RealEnvStore failing_values
                     (VString FOO) (VObject 1) (fresh inherited true)))
     = inherited.
Proof.
  pose proof (@failed_notice_aborts_write _ Posix.RealEnvStore failing_values
                (VString FOO) (VObject 1) (fresh inherited true)
                eq_refl eq_refl eq_refl eq_refl eq_refl eq_refl) as W.
  split; [exact (proj1 W) | exact (proj1 (proj2 W))].
Defined.

(** ** C7: the result value of a write *)

(** C7, as the spec states it, fails when a coercion fails: a symbol has
    no string form, so the write returns early with the exception pending
    and never sets its result value. *)
Lemma write_of_symbol_sets_no_result :
  fst (@Facade.EnvSetter _ Posix.RealEnvStore values
         (VString FOO) (VSymbol 0) (fresh inherited false))
  = Thrown JSError
  /\ fst (@Facade.EnvSetter _ Posix.RealEnvStore values
            (VString FOO) (VSymbol 0) (fresh inherited false))
     <> Ok (Some (VSymbol 0)).
Proof.
  split; [reflexivity | discriminate].
Qed.

(** C7 (amended): for every [Write(name, value)] in which the deprecation
    notice, when one is due, is delivered and both [name] and [value]
    have a string form, the result value is the original, uncoerced input
    value; when the notification fails or a coercion fails the write ends
    with the exception pending and sets no result value. *)
Theorem write_result {S : Type} `{KVStore S} `{HostValues}
    (name value : Value) (env : Environment S) :
  (Writes.notification_fails env value = false ->
   ToString name <> None -> ToString value <> None ->
   fst (Facade.EnvSetter name value env) = Ok (Some value))
  /\ (Writes.notification_fails env value = true
      \/ ToString name = None \/ ToString value = None ->
      fst (Facade.EnvSetter name value env) = Thrown JSError).
Proof.
  split.
  - intros N Ek Ev.
    destruct (ToString name) as [key|] eqn:E1; [|congruence].
    destruct (ToString value) as [vs|] eqn:E2; [|congruence].
    eapply FacadeFacts.EnvSetter_completes; eauto.
  - apply FacadeFacts.EnvSetter_aborts.
Qed.

(** The hypotheses of C7 (amended) hold for an object written at
    start-up when the collaborator delivers. *)
Lemma write_result_witness :
  fst (@Facade.EnvSetter _ Posix.RealEnvStore values
         (VString FOO) (VObject 1) (fresh inherited true))
  = Ok (Some (VObject 1)).
Proof.
  apply (proj1 (@write_result _ Posix.RealEnvStore values
                  (VString FOO) (VObject 1) (fresh inherited true)));
    [reflexivity | discriminate | discriminate].
Defined.

(** ** C8: one deprecation notice *)

(** The claim as stated fails for a process that hosts two contexts:
    each context has its own warning state, so a qualifying write through
    the first and another through a context started later in the same
    process hand two notices to the collaborator. *)
Lemma second_context_emits_again :
  Writes.qualifies (fresh inherited true) (VObject 1) = true
  /\ length (notices
               (snd (@Facade.EnvSetter _ Posix.RealEnvStore values
                       (VString FOO) (VObject 1) (fresh inherited true))))
     = 1%nat
  /\ length (notices
               (snd (@Facade.EnvSetter _ Posix.RealEnvStore values
                       (VString FOO) (VObject 2)
                       (Writes.new_context
                          (snd (@Facade.EnvSetter _ Posix.RealEnvStore values
                                  (VString FOO) (VObject 1)
                                  (fresh inherited true)))))))
     = 2%nat.
Proof. split; [|split]; reflexivity. Qed.

(** C8 (amended): over any sequence of writes made through one context,
    at most one deprecation notice is ever handed to the collaborator;
    once a qualifying write (deprecation-pending configuration, value
    neither string, number nor boolean) has happened, no later write
    through that context emits one; a qualifying write whose notice, if
    one is due, is delivered and whose name and value have string forms
    hands exactly these two string forms to [Set], once, and returns the
    value as given; a qualifying write whose notice fails, or whose name
    or value has no string form, ends with an exception pending and
    reaches the store not at all; and the first qualifying write, the
    warning being still due, emits exactly the one notice. *)
Theorem one_deprecation_notice {S : Type} `{KVStore S} `{HostValues} :
  (forall ws (env : Environment S),
      (length (notices (Writes.writes ws env)) <= length (notices env) + 1)%nat)
  /\ (forall name value ws name' value' (env : Environment S),
        Writes.qualifies env value = true ->
        notices (snd (Facade.EnvSetter name' value'
                        (Writes.writes ws (snd (Facade.EnvSetter name value env)))))
        = notices (snd (Facade.EnvSetter name value env)))
  /\ (forall name value (env : Environment S) key value_string,
        Writes.qualifies env value = true ->
        Writes.notification_fails env value = false ->
        ToString name = Some key ->
        ToString value = Some value_string ->
        envvars (snd (Facade.EnvSetter name value env))
        = kv_Set (envvars env) key value_string
        /\ calls (snd (Facade.EnvSetter name value env))
           = calls env ++ [CallSet key value_string]
        /\ fst (Facade.EnvSetter name value env) = Ok (Some value))
  /\ (forall name value (env : Environment S),
        Writes.qualifies env value = true ->
        Writes.notification_fails env value = true
        \/ ToString name = None \/ ToString value = None ->
        envvars (snd (Facade.EnvSetter name value env)) = envvars env
        /\ calls (snd (Facade.EnvSetter name value env)) = calls env
        /\ fst (Facade.EnvSetter name value env) = Thrown JSError)
  /\ (forall name value (env : Environment S),
        Writes.qualifies env value = true ->
        emit_env_nonstring_warning_ env = true ->
        notices (snd (Facade.EnvSetter name value env))
        = notices env ++ [mkNotice Facade.DEP0104_message "DEP0104"%string]).
Proof.
  split; [|split; [|split; [|split]]].
  - intros ws env. apply FacadeFacts.writes_notices.
  - intros name value ws name' value' env Q.
    pose proof (FacadeFacts.EnvSetter_flag_used name value env Q) as F.
    destruct (FacadeFacts.writes_flag_off ws _ F) as [F' N'].
    now rewrite FacadeFacts.EnvSetter_quiet, N'.
  - intros name value env key vs _ N Ek Ev.
    pose proof (FacadeFacts.EnvSetter_completes name value env N key vs Ek Ev)
      as R.
    destruct (FacadeFacts.EnvSetter_store name value env)
      as [(_ & _ & T) | (key' & vs' & Ek' & Ev' & E & C & _)]; [congruence|].
    rewrite Ek in Ek'. rewrite Ev in Ev'.
    injection Ek' as <-. injection Ev' as <-. now split.
  - intros name value env _ D.
    pose proof (FacadeFacts.EnvSetter_aborts name value env D) as T.
    destruct (FacadeFacts.EnvSetter_store name value env)
      as [(E & C & _) | (key & vs & _ & _ & _ & _ & R)]; [|congruence].
    now split.
  - intros name value env Q F.
    now rewrite FacadeFacts.EnvSetter_notices, Q, F.
Qed.

(** Three writes through one context, two of them qualifying: one
    notice; and the first of them leaves the string form of the object
    in the environment, under [FOO]. *)
Lemma one_deprecation_notice_witness :
  length (notices
            (@Writes.writes _ Posix.RealEnvStore values
               [(VString FOO, VObject 1); (VString FOO, VNull);
                (VString bar, VObject 2)]
               (fresh inherited true))) = 1%nat
  /\ notices
       (snd (@Facade.EnvSetter _ Posix.RealEnvStore values (VString bar) VNull
               (@Writes.writes _ Posix.RealEnvStore values []
                  (snd (@Facade.EnvSetter _ Posix.RealEnvStore values
                          (VString FOO) (VObject 1) (fresh inherited true))))))
     = notices
         (snd (@Facade.EnvSetter _ Posix.RealEnvStore values
                 (VString FOO) (VObject 1) (fresh inherited true)))
  /\ envvars (snd (@Facade.EnvSetter _ Posix.RealEnvStore values
                     (VString FOO) (VObject 1) (fresh inherited true)))
     = inherited ++ [units "FOO=[object Object]"]
  /\ fst (@Facade.EnvSetter _ Posix.RealEnvStore failing_values
            (VString FOO) (VObject 1) (fresh inherited true))
     = Thrown JSError.
Proof.
  split; [reflexivity|]. split; [|split].
  - apply (proj1 (proj2 (@one_deprecation_notice _ Posix.RealEnvStore values))).
    reflexivity.
  - assert (Q : @Writes.qualifies Posix.Environ (fresh inherited true)
                  (VObject 1) = true) by reflexivity.
    assert (N : @Writes.notification_fails Posix.Environ values
                  (fresh inherited true) (VObject 1) = false) by reflexivity.
    assert (Ek : @ToString values (VString FOO) = Some FOO) by reflexivity.
    assert (Ev : @ToString values (VObject 1)
                 = Some (units "[object Object]")) by reflexivity.
    rewrite (proj1 (proj1 (proj2 (proj2
               (@one_deprecation_notice _ Posix.RealEnvStore values)))
               (VString FOO) (VObject 1) (fresh inherited true) FOO
               (units "[object Object]") Q N Ek Ev)).
    reflexivity.
  - assert (Q : @Writes.qualifies Posix.Environ (fresh inherited true)
                  (VObject 1) = true) by reflexivity.
    assert (D : @Writes.notification_fails Posix.Environ failing_values
                  (fresh inherited true) (VObject 1) = true
                \/ @ToString failing_values (VString FOO) = None
                \/ @ToString failing_values (VObject 1) = None)
      by (left; reflexivity).
    exact (proj2 (proj2 (proj1 (proj2 (proj2 (proj2
             (@one_deprecation_notice _ Posix.RealEnvStore failing_values))))
             (VString FOO) (VObject 1) (fresh inherited true) Q D))).
Defined.

(** ** C10: the names a read can be given *)



(** Without the host's guarantee the assertion does fire. *)
Example read_of_number_aborts :
  fst (@Facade.EnvGetter _ Posix.RealEnvStore (VNumber 1)
         (fresh inherited false)) = Fatal CHECK_failed.
Proof. reflexivity. Qed.

(** ** C5: Query *)

(** The claim as stated fails on the byte-string platform: the key
    ["A=B"] was never written, and no record defines it (the only record,
    written by [Set("A", "B=c")], defines [A]), yet [Query("A=B")] reads
    "present", because the lookup takes any record that starts with the
    name and a ['=']. *)
Lemma Query_finds_unwritten_key :
  forallb (fun r => negb (Posix.defines (c_str (Utf8Value A_B)) r))
    (Posix.RealEnvStore_Set [] A B_c) = true
  /\ fst (Posix.RealEnvStore_Query (Posix.RealEnvStore_Set [] A B_c) A_B) = 0
  /\ fst (Posix.RealEnvStore_Query (Posix.RealEnvStore_Set [] A B_c) A_B)
     <> -1.
Proof.
  split; [|split]; try reflexivity. vm_compute. discriminate.
Qed.

(** C5 (amended): [Query] changes nothing in the environment (on the
    UTF-16 platform it only resets the thread's last-error code); a key
    that no record defines, and whose native name on the byte-string
    platform holds no ['='], reads as "not present" (-1); after a [Set]
    that the platform accepts the key reads as "present, normal" (0); and
    a value set to the empty string reads as found, both through [Query]
    and through [Get], which tells it apart from "no value". *)
Theorem Query_tri_state `{HostStrings} `{NameFolding} :
  (forall environ k,
      snd (Posix.RealEnvStore_Query environ k) = environ
      /\ (has_sep (c_str (Utf8Value k)) = false ->
          forallb (fun r => negb (Posix.defines (c_str (Utf8Value k)) r))
            environ = true ->
          fst (Posix.RealEnvStore_Query environ k) = -1)
      /\ (Posix.valid_name (c_str (Utf8Value k)) = true ->
          forall v,
          fst (Posix.RealEnvStore_Query (Posix.RealEnvStore_Set environ k v) k)
          = 0
          /\ (c_str (Utf8Value v) = [] ->
              Posix.getenv (Posix.RealEnvStore_Set environ k v)
                (c_str (Utf8Value k)) = Some []
              /\ fst (Posix.RealEnvStore_Get
                        (Posix.RealEnvStore_Set environ k v) k) <> Ok None)))
  /\ (forall st k,
      Win32.block (snd (Win32.RealEnvStore_Query st k)) = Win32.block st
      /\ (forallb (fun r => negb (Win32.defines (c_str (TwoByteValue k)) r))
            (Win32.block st) = true ->
          fst (Win32.RealEnvStore_Query st k) = -1)
      /\ (deref (TwoByteValue k) <> SEP ->
          Win32.valid_name (c_str (TwoByteValue k)) = true ->
          forall v,
          fst (Win32.RealEnvStore_Query (Win32.RealEnvStore_Set st k v) k) = 0
          /\ (c_str (TwoByteValue v) = [] ->
              Win32.lookup (Win32.block (Win32.RealEnvStore_Set st k v))
                (c_str (TwoByteValue k)) = Some []
              /\ fst (Win32.RealEnvStore_Get
                        (Win32.RealEnvStore_Set st k v) k) <> Ok None))).
Proof.
  split.
  - intros environ k. split; [apply PosixFacts.Query_pure|]. split.
    + apply PosixFacts.Query_absent.
    + intros Ek v. split; [now apply PosixFacts.posix_Set_Query|].
      intros Ev.
      assert (G : Posix.getenv (Posix.RealEnvStore_Set environ k v)
                    (c_str (Utf8Value k)) = Some []).
      { unfold Posix.RealEnvStore_Set, Posix.setenv.
        rewrite Ek, PosixFacts.getenv_overwrite by auto using c_str_no_nul.
        now rewrite Ev. }
      split; [exact G|].
      unfold Posix.RealEnvStore_Get. rewrite G.
      now destruct (NewFromUtf8_n [] (-1)).
  - intros st k. unfold TwoByteValue.
    split; [apply Win32Facts.Query_block|]. split.
    + intros A. rewrite Win32Facts.Query_lookup.
      now rewrite Win32Facts.lookup_undefined.
    + intros Ed Ek v. split; [now apply Win32Facts.win32_Set_Query|].
      intros Ev.
      assert (G : Win32.lookup (Win32.block (Win32.RealEnvStore_Set st k v))
                    (c_str k) = Some []).
      { rewrite Win32Facts.Set_block, Win32Facts.lookup_overwrite;
          auto using c_str_no_nul.
        - now rewrite Ev.
        - now rewrite Win32Facts.deref_c_str. }
      split; [exact G|].
      rewrite Win32Facts.Get_lookup, G. cbn [length Z.of_nat].
      change (0 <? Win32.buffer_size) with true. cbn match.
      now destruct (NewFromTwoByte []).
Qed.

(** The hypotheses of C5 hold for [FOO] on both platforms. *)
Lemma Query_tri_state_witness :
  fst (Posix.RealEnvStore_Query inherited FOO) = -1
  /\ fst (Posix.RealEnvStore_Query (Posix.RealEnvStore_Set inherited FOO bar) FOO)
     = 0
  /\ fst (Win32.RealEnvStore_Query started FOO) = -1
  /\ fst (Win32.RealEnvStore_Query (Win32.RealEnvStore_Set started FOO []) FOO)
     = 0.
Proof.
  split; [|split; [|split]].
  - apply (proj1 (proj2 (proj1 Query_tri_state inherited FOO)));
      reflexivity.
  - apply (proj2 (proj2 (proj1 Query_tri_state inherited FOO))). reflexivity.
  - apply (proj1 (proj2 (proj2 Query_tri_state started FOO))). reflexivity.
  - apply (proj2 (proj2 (proj2 Query_tri_state started FOO)));
      [vm_compute; discriminate | reflexivity].
Defined.

(** ** C6: Delete *)

(** The claim as stated fails on the byte-string platform: over the
    record ["A=B=c"], [Delete("A=B")] is refused by [unsetenv] (the name
    holds a ['=']) and changes nothing, and the [Get("A=B")] that follows
    returns ["c"], read out of the record of [A]. *)
Lemma Delete_then_Get_finds_value :
  Posix.RealEnvStore_Delete nested A_B = nested
  /\ fst (Posix.RealEnvStore_Get (Posix.RealEnvStore_Delete nested A_B) A_B)
     = Ok (Some c)
  /\ fst (Posix.RealEnvStore_Get (Posix.RealEnvStore_Delete nested A_B) A_B)
     <> Ok None.
Proof.
  split; [|split]; try reflexivity. vm_compute. discriminate.
Qed.

(** C6 (amended): for every key whose native name on the byte-string
    platform holds no ['='], and for every key on the UTF-16 platform,
    [Delete(k)] followed by [Get(k)] returns "no value"; [Delete] cannot
    fail (it returns nothing but the store it leaves); and the interceptor
    reports [true] whatever the key is, string or not, present or not, the
    first time and the second, calling [Delete] for string keys and
    nothing otherwise. *)
Theorem Delete_then_Get `{HostStrings} `{NameFolding} :
  (forall environ k,
      has_sep (c_str (Utf8Value k)) = false ->
      fst (Posix.RealEnvStore_Get (Posix.RealEnvStore_Delete environ k) k)
      = Ok None)
  /\ (forall st k,
        fst (Win32.RealEnvStore_Get (Win32.RealEnvStore_Delete st k) k)
        = Ok None)
  /\ (forall (S : Type) (store : KVStore S) (property : Value)
             (env : Environment S),
        fst (Facade.EnvDeleter property env) = Ok (Some true)
        /\ fst (Facade.EnvDeleter property
                  (snd (Facade.EnvDeleter property env))) = Ok (Some true)
        /\ snd (Facade.EnvDeleter property env)
           = if IsString property
             then Facade.after_call env
                    (kv_Delete (envvars env) (AsString property))
                    (CallDelete (AsString property))
             else env).
Proof.
  split; [|split].
  - intros. now apply PosixFacts.posix_Delete_Get.
  - intros. apply Win32Facts.win32_Delete_Get.
  - intros S store property env. repeat split.
Qed.

(** The hypothesis of C6 holds for [HOME], which the inherited
    environment defines. *)
Lemma Delete_then_Get_witness :
  has_sep (c_str (Utf8Value (units "HOME"))) = false
  /\ fst (Posix.RealEnvStore_Get inherited (units "HOME"))
     = Ok (Some (units "/root"))
  /\ fst (Posix.RealEnvStore_Get
            (Posix.RealEnvStore_Delete inherited (units "HOME"))
            (units "HOME")) = Ok None.
Proof.
  split; [reflexivity|]. split; [reflexivity|].
  apply (proj1 Delete_then_Get inherited (units "HOME")). reflexivity.
Defined.

(** ** C9: the keys Enumerate builds *)

(** C9: on both platform families [Enumerate] turns each record it
    lists into the key that ends at the record's first ['='], and a record
    without any ['='] contributes its entire text as a key; it is not
    skipped.  The byte-string platform lists every record, the UTF-16
    platform every record that is not hidden; records are shorter than
    2^31 units, and those of the UTF-16 block are non-empty and free of
    terminators. *)
Theorem Enumerate_splits_at_first_separator `{HostStrings} `{NameFolding} :
  (forall environ,
      forallb short environ = true ->
      fst (Posix.RealEnvStore_Enumerate environ)
      = build_keys NewFromUtf8 (Fatal ToLocalChecked_empty)
          (map key_text environ)
      /\ (forall r ks,
            In r environ -> strchr r SEP = None ->
            fst (Posix.RealEnvStore_Enumerate environ) = Ok ks ->
            exists key, NewFromUtf8 (c_str r) = Some key /\ In key ks))
  /\ (forall st,
      forallb Block.well_formed (Win32.block st) = true ->
      fst (Win32.RealEnvStore_Enumerate st)
      = build_keys NewFromTwoByte (Thrown ERR_STRING_TOO_LONG)
          (map key_text
             (filter (fun r => negb (Block.hidden r)) (Win32.block st)))
      /\ (forall r ks,
            In r (Win32.block st) -> strchr r SEP = None ->
            fst (Win32.RealEnvStore_Enumerate st) = Ok ks ->
            In r ks)).
Proof.
  split.
  - intros environ Hs.
    assert (E : fst (Posix.RealEnvStore_Enumerate environ)
                = build_keys NewFromUtf8 (Fatal ToLocalChecked_empty)
                    (map key_text environ))
      by now apply PosixEnumerate.Enumerate_loop_keys.
    split; [exact E|].
    intros r ks Hin Hsep Hok. rewrite E in Hok.
    assert (Hk : key_text r = c_str r) by (unfold key_text; now rewrite Hsep).
    rewrite <- Hk.
    apply (build_keys_In NewFromUtf8 (Fatal ToLocalChecked_empty)
             (map key_text environ)); [discriminate | assumption |].
    now apply in_map.
  - intros st Hwf.
    assert (E := Win32Enumerate.Enumerate_keys st Hwf).
    split; [exact E|].
    intros r ks Hin Hsep Hok. rewrite E in Hok.
    pose proof (proj1 (forallb_forall _ _) Hwf r Hin) as Hr.
    unfold Block.well_formed in Hr.
    apply andb_true_iff in Hr as [Hr _]. apply andb_true_iff in Hr as [Hne En].
    rewrite negb_true_iff in En.
    assert (Hk : key_text r = r)
      by (unfold key_text; rewrite Hsep; now apply c_str_fixed).
    assert (Hv : Block.hidden r = false).
    { unfold Block.hidden. destruct r as [|c q]; [discriminate|].
      cbn [deref hd]. cbn [strchr] in Hsep. now destruct (c =? SEP). }
    destruct (build_keys_In NewFromTwoByte (Thrown ERR_STRING_TOO_LONG)
                (map key_text
                   (filter (fun r => negb (Block.hidden r)) (Win32.block st)))
                ltac:(discriminate) ks (key_text r) Hok)
      as (key & Ekey & Hkey).
    + apply in_map, filter_In. split; [assumption | now rewrite Hv].
    + apply NewFromTwoByte_exact in Ekey. now rewrite Ekey, Hk in Hkey.
Qed.

(** The hypotheses of C9 hold for the sample environments; the record
    [NOSEP] is listed whole and the hidden one is not listed. *)
Lemma Enumerate_splits_at_first_separator_witness :
  fst (Posix.RealEnvStore_Enumerate inherited)
  = Ok [units "HOME"; units "NOSEP"; units "EMPTY"]
  /\ fst (Win32.RealEnvStore_Enumerate started)
     = Ok [units "PATH"; units "NOSEP"].
Proof.
  split.
  - rewrite (proj1 (proj1 Enumerate_splits_at_first_separator inherited
                      eq_refl)).
    reflexivity.
  - rewrite (proj1 (proj2 Enumerate_splits_at_first_separator started
                      eq_refl)).
    reflexivity.
Defined.

(** * Further properties of the store and of the interceptors *)

(** ** Operations on one key leave the other keys alone *)

Lemma str_eqb_neq a b : a <> b -> str_eqb a b = false.
Proof.
  intros N. destruct (str_eqb a b) eqn:E; [|reflexivity].
  now apply str_eqb_eq in E.
Qed.

Module PosixFrame.
Import Posix.

Lemma posix_defines_other n n' r : defines n r = true -> n <> n' -> defines n' r = false.
Proof.
  unfold defines. destruct (strchr r SEP) as [i|]; [|discriminate].
  intros E N. apply str_eqb_eq in E. rewrite E. now apply str_eqb_neq.
Qed.

Lemma getenv_overwrite_other env n n' v :
  valid_name n = true -> has_nul n = false ->
  has_sep n' = false -> has_nul n' = false -> n <> n' ->
  getenv (overwrite env n v) n' = getenv env n'.
Proof.
  intros Ev En Es' En' N. pose proof (PosixFacts.valid_name_sep n Ev) as Es.
  assert (New : defines n' (n ++ SEP :: v) = false)
    by (apply (posix_defines_other n); [now apply PosixFacts.defines_record | assumption]).
  induction env as [|r env IH]; cbn [overwrite].
  - rewrite PosixFacts.getenv_cons by assumption.
    now rewrite New, andb_false_r.
  - destruct (defines n r) eqn:E;
      rewrite !(PosixFacts.getenv_cons _ _ n') by assumption.
    + now rewrite New, (posix_defines_other n n' r E N), !andb_false_r.
    + now rewrite IH.
Qed.

Lemma getenv_removed_other env n n' :
  has_sep n' = false -> has_nul n' = false -> n <> n' ->
  getenv (filter (fun r => negb (defines n r)) env) n' = getenv env n'.
Proof.
  intros Es' En' N. induction env as [|r env IH]; cbn [filter]; [reflexivity|].
  destruct (defines n r) eqn:E; cbn [negb];
    rewrite !(PosixFacts.getenv_cons _ _ n') by assumption.
  - now rewrite IH, (posix_defines_other n n' r E N), andb_false_r.
  - now rewrite IH.
Qed.

Lemma getenv_setenv_other env n n' v :
  has_nul n = false -> has_sep n' = false -> has_nul n' = false -> n <> n' ->
  getenv (setenv env n v) n' = getenv env n'.
Proof.
  intros En Es' En' N. unfold setenv.
  destruct (valid_name n) eqn:Ev; [|reflexivity].
  now apply getenv_overwrite_other.
Qed.

Lemma getenv_unsetenv_other env n n' :
  has_sep n' = false -> has_nul n' = false -> n <> n' ->
  getenv (unsetenv env n) n' = getenv env n'.
Proof.
  intros Es' En' N. unfold unsetenv. destruct (valid_name n); [|reflexivity].
  now apply getenv_removed_other.
Qed.

Section Store.
Context `{HostStrings}.

(** [Get] and [Query] in terms of what [getenv] finds for the key. *)
Lemma Get_getenv environ k :
  fst (RealEnvStore_Get environ k) =
  match getenv environ (c_str (Utf8Value k)) with
  | Some val =>
      match NewFromUtf8_n val (-1) with
      | Some s => Ok (Some s)
      | None => Fatal ToLocalChecked_empty
      end
  | None => Ok None
  end.
Proof.
  unfold RealEnvStore_Get.
  destruct (getenv _ _); [destruct (NewFromUtf8_n _ _)|]; reflexivity.
Qed.

Lemma Query_getenv environ k :
  fst (RealEnvStore_Query environ k) =
  match getenv environ (c_str (Utf8Value k)) with
  | Some _ => 0
  | None => -1
  end.
Proof.
  unfold RealEnvStore_Query. now destruct (getenv _ _).
Qed.
End Store.
End PosixFrame.

Module Win32Frame.
Import Win32.
Section Api.
Context `{NameFolding}.

Lemma name_eqb_trans a b c :
  name_eqb a b = true -> name_eqb a c = false -> name_eqb b c = false.
Proof.
  unfold name_eqb. intros E N. apply str_eqb_eq in E.
  now rewrite <- E.
Qed.

Lemma win32_defines_other n n' r :
  defines n r = true -> name_eqb n n' = false -> defines n' r = false.
Proof.
  unfold defines. destruct (split_record r) as [[rn v]|]; [|discriminate].
  intros E N. unfold name_eqb in *. apply str_eqb_eq in E.
  now rewrite E.
Qed.

Lemma lookup_overwrite_other blk n n' v :
  valid_name n = true -> has_nul n = false -> name_eqb n n' = false ->
  lookup (overwrite blk n v) n' = lookup blk n'.
Proof.
  intros Ev En N. destruct n as [|c tl]; [discriminate|].
  cbn [valid_name] in Ev. rewrite negb_true_iff in Ev.
  assert (New : defines n' ((c :: tl) ++ SEP :: v) = false).
  { unfold defines. now rewrite Win32Facts.split_new_record by assumption. }
  induction blk as [|r blk IH]; cbn [overwrite lookup].
  - now rewrite New.
  - destruct (defines (c :: tl) r) eqn:E; cbn [lookup].
    + now rewrite New, (win32_defines_other _ n' r E N).
    + now rewrite IH.
Qed.

Lemma lookup_removed_other blk n n' :
  name_eqb n n' = false ->
  lookup (filter (fun r => negb (defines n r)) blk) n' = lookup blk n'.
Proof.
  intros N. induction blk as [|r blk IH]; cbn [filter lookup]; [reflexivity|].
  destruct (defines n r) eqn:E; cbn [negb lookup].
  - now rewrite (win32_defines_other n n' r E N).
  - now rewrite IH.
Qed.
End Api.

Section Store.
Context `{HostStrings} `{NameFolding}.

(** What [Set] and [Delete] do to the block, whatever the key. *)
Lemma Set_block_cases st k v :
  block (RealEnvStore_Set st k v) =
  if negb (deref k =? SEP) && valid_name (c_str k)
  then overwrite (block st) (c_str k) (c_str v)
  else block st.
Proof.
  unfold RealEnvStore_Set, SetEnvironmentVariableW, TwoByteValue.
  destruct (deref k =? SEP); cbn [negb andb]; [reflexivity|].
  now destruct (valid_name (c_str k)).
Qed.

Lemma Delete_block_cases st k :
  block (RealEnvStore_Delete st k) =
  if valid_name (c_str k)
  then filter (fun r => negb (defines (c_str k) r)) (block st)
  else block st.
Proof.
  unfold RealEnvStore_Delete, SetEnvironmentVariableW, TwoByteValue.
  now destruct (valid_name (c_str k)).
Qed.

Lemma lookup_Set_other st k k' v :
  name_eqb (c_str k) (c_str k') = false ->
  lookup (block (RealEnvStore_Set st k v)) (c_str k') = lookup (block st) (c_str k').
Proof.
  intros N. rewrite Set_block_cases.
  destruct (negb (deref k =? SEP) && valid_name (c_str k)) eqn:E; [|reflexivity].
  apply andb_true_iff in E as [_ Ev].
  now apply lookup_overwrite_other; auto using c_str_no_nul.
Qed.

Lemma lookup_Delete_other st k k' :
  name_eqb (c_str k) (c_str k') = false ->
  lookup (block (RealEnvStore_Delete st k)) (c_str k') = lookup (block st) (c_str k').
Proof.
  intros N. rewrite Delete_block_cases.
  destruct (valid_name (c_str k)); [|reflexivity].
  now apply lookup_removed_other.
Qed.
End Store.
End Win32Frame.

(** X1: [Set] on one key changes neither what [Get] returns nor what
    [Query] reports for a key with another native name (another name
    after case folding, on the UTF-16 platform), whether or not the
    platform accepts the name that is set.  On the byte-string platform
    this is for a key that is read under a name without ['=']: a name
    with one is looked up inside the records of other variables, see
    [Set_changes_key_with_separator]. *)
Theorem Set_leaves_other_keys `{HostStrings} `{NameFolding} :
  (forall environ k k' v,
      c_str (Utf8Value k) <> c_str (Utf8Value k') ->
      has_sep (c_str (Utf8Value k')) = false ->
      fst (Posix.RealEnvStore_Get (Posix.RealEnvStore_Set environ k v) k')
      = fst (Posix.RealEnvStore_Get environ k')
      /\ fst (Posix.RealEnvStore_Query (Posix.RealEnvStore_Set environ k v) k')
         = fst (Posix.RealEnvStore_Query environ k'))
  /\ (forall st k k' v,
      Win32.name_eqb (c_str (TwoByteValue k)) (c_str (TwoByteValue k')) = false ->
      fst (Win32.RealEnvStore_Get (Win32.RealEnvStore_Set st k v) k')
      = fst (Win32.RealEnvStore_Get st k')
      /\ fst (Win32.RealEnvStore_Query (Win32.RealEnvStore_Set st k v) k')
         = fst (Win32.RealEnvStore_Query st k')).
Proof.
  split.
  - intros environ k k' v N Es'.
    rewrite !PosixFrame.Get_getenv, !PosixFrame.Query_getenv.
    unfold Posix.RealEnvStore_Set.
    rewrite PosixFrame.getenv_setenv_other by auto using c_str_no_nul.
    split; reflexivity.
  - intros st k k' v N. unfold TwoByteValue in N.
    rewrite !Win32Facts.Get_lookup, !Win32Facts.Query_lookup.
    now rewrite Win32Frame.lookup_Set_other.
Qed.

(** [Set("FOO", ...)] leaves [HOME] and [PATH] as they were. *)
Lemma Set_leaves_other_keys_witness :
  has_sep (c_str (Utf8Value (units "HOME"))) = false
  /\ fst (Posix.RealEnvStore_Get (Posix.RealEnvStore_Set inherited FOO bar)
         (units "HOME")) = Ok (Some (units "/root"))
  /\ fst (Win32.RealEnvStore_Get (Win32.RealEnvStore_Set started FOO bar)
            (units "PATH")) = Ok (Some (units "C:\bin")).
Proof.
  assert (N : c_str (Utf8Value FOO) <> c_str (Utf8Value (units "HOME")))
    by (vm_compute; discriminate).
  assert (E : has_sep (c_str (Utf8Value (units "HOME"))) = false)
    by reflexivity.
  split; [exact E|]. split.
  - rewrite (proj1 (proj1 Set_leaves_other_keys inherited FOO (units "HOME") bar
                      N E)).
    reflexivity.
  - assert (M : Win32.name_eqb (c_str (TwoByteValue FOO))
                   (c_str (TwoByteValue (units "PATH"))) = false)
      by reflexivity.
    rewrite (proj1 (proj2 Set_leaves_other_keys started FOO (units "PATH") bar
                      M)).
    reflexivity.
Defined.

(** A key that is read under a name with a ['='] does change when another
    variable is set or deleted: [Set("A", "B=c")] makes [Get("A=B")] return
    ["c"], and [Delete("A")] makes it return "no value" again. *)
Example Set_changes_key_with_separator :
  fst (Posix.RealEnvStore_Get [] A_B) = Ok None
  /\ fst (Posix.RealEnvStore_Get (Posix.RealEnvStore_Set [] A B_c) A_B)
     = Ok (Some c)
  /\ fst (Posix.RealEnvStore_Get
            (Posix.RealEnvStore_Delete (Posix.RealEnvStore_Set [] A B_c) A)
            A_B) = Ok None.
Proof. split; [|split]; reflexivity. Qed.

(** X2: [Delete] on one key changes neither what [Get] returns nor what
    [Query] reports for a key with another native name (another name
    after case folding, on the UTF-16 platform).  On the byte-string
    platform this is for a key that is read under a name without ['='],
    see [Set_changes_key_with_separator]. *)
Theorem Delete_leaves_other_keys `{HostStrings} `{NameFolding} :
  (forall environ k k',
      c_str (Utf8Value k) <> c_str (Utf8Value k') ->
      has_sep (c_str (Utf8Value k')) = false ->
      fst (Posix.RealEnvStore_Get (Posix.RealEnvStore_Delete environ k) k')
      = fst (Posix.RealEnvStore_Get environ k')
      /\ fst (Posix.RealEnvStore_Query (Posix.RealEnvStore_Delete environ k) k')
         = fst (Posix.RealEnvStore_Query environ k'))
  /\ (forall st k k',
      Win32.name_eqb (c_str (TwoByteValue k)) (c_str (TwoByteValue k')) = false ->
      fst (Win32.RealEnvStore_Get (Win32.RealEnvStore_Delete st k) k')
      = fst (Win32.RealEnvStore_Get st k')
      /\ fst (Win32.RealEnvStore_Query (Win32.RealEnvStore_Delete st k) k')
         = fst (Win32.RealEnvStore_Query st k')).
Proof.
  split.
  - intros environ k k' N Es'.
    rewrite !PosixFrame.Get_getenv, !PosixFrame.Query_getenv.
    unfold Posix.RealEnvStore_Delete.
    rewrite PosixFrame.getenv_unsetenv_other by auto using c_str_no_nul.
    split; reflexivity.
  - intros st k k' N. unfold TwoByteValue in N.
    rewrite !Win32Facts.Get_lookup, !Win32Facts.Query_lookup.
    now rewrite Win32Frame.lookup_Delete_other.
Qed.

(** [Delete("EMPTY")] and [Delete("=C:")] leave [HOME] and [PATH] as they
    were. *)
Lemma Delete_leaves_other_keys_witness :
  has_sep (c_str (Utf8Value (units "HOME"))) = false
  /\ fst (Posix.RealEnvStore_Get
         (Posix.RealEnvStore_Delete inherited (units "EMPTY")) (units "HOME"))
  = Ok (Some (units "/root"))
  /\ fst (Win32.RealEnvStore_Get (Win32.RealEnvStore_Delete started drive)
            (units "PATH")) = Ok (Some (units "C:\bin")).
Proof.
  assert (N : c_str (Utf8Value (units "EMPTY"))
               <> c_str (Utf8Value (units "HOME")))
    by (vm_compute; discriminate).
  assert (E : has_sep (c_str (Utf8Value (units "HOME"))) = false)
    by reflexivity.
  split; [exact E|]. split.
  - rewrite (proj1 (proj1 Delete_leaves_other_keys inherited (units "EMPTY")
                      (units "HOME") N E)).
    reflexivity.
  - assert (M : Win32.name_eqb (c_str (TwoByteValue drive))
                   (c_str (TwoByteValue (units "PATH"))) = false)
      by reflexivity.
    rewrite (proj1 (proj2 Delete_leaves_other_keys started drive (units "PATH")
                      M)).
    reflexivity.
Defined.

(** ** Query and Get on the same key *)

(** X3: what [Query] reports and what [Get] returns agree.  On the
    byte-string platform [Query] answers -1 or 0, and -1 exactly when
    [Get] returns "no value".  On the UTF-16 platform [Query] answers -1,
    0 or 7 (read-only, don't-delete, don't-enum), 7 only for a key that
    starts with ['='] and 0 only for one that does not; when it answers
    -1, [Get] returns "no value"; and [Get] returns "no value" for a key
    that [Query] reports present only when the stored value does not fit
    the buffer. *)
Theorem Query_agrees_with_Get `{HostStrings} `{NameFolding} :
  (forall environ k,
      (fst (Posix.RealEnvStore_Query environ k) = -1
       \/ fst (Posix.RealEnvStore_Query environ k) = 0)
      /\ (fst (Posix.RealEnvStore_Query environ k) = -1
          <-> fst (Posix.RealEnvStore_Get environ k) = Ok None))
  /\ (forall st k,
      (fst (Win32.RealEnvStore_Query st k) = -1
       \/ fst (Win32.RealEnvStore_Query st k) = 0
       \/ fst (Win32.RealEnvStore_Query st k) = 7)
      /\ (fst (Win32.RealEnvStore_Query st k) = 7 -> deref (TwoByteValue k) = SEP)
      /\ (fst (Win32.RealEnvStore_Query st k) = 0 -> deref (TwoByteValue k) <> SEP)
      /\ (fst (Win32.RealEnvStore_Query st k) = -1 ->
          fst (Win32.RealEnvStore_Get st k) = Ok None)
      /\ (fst (Win32.RealEnvStore_Get st k) = Ok None ->
          fst (Win32.RealEnvStore_Query st k) = -1
          \/ exists v,
               Win32.lookup (Win32.block st) (c_str (TwoByteValue k)) = Some v
               /\ Win32.buffer_size <= Z.of_nat (length v))).
Proof.
  split.
  - intros environ k. rewrite PosixFrame.Get_getenv, PosixFrame.Query_getenv.
    destruct (Posix.getenv environ (c_str (Utf8Value k))) as [val|].
    + split; [now right|].
      split; [discriminate|]. now destruct (NewFromUtf8_n val (-1)).
    + split; [now left|]. now split.
  - intros st k. unfold TwoByteValue.
    rewrite Win32Facts.Get_lookup, Win32Facts.Query_lookup.
    destruct (Win32.lookup (Win32.block st) (c_str k)) as [v|].
    + change (Z.lor (Z.lor ReadOnly DontDelete) DontEnum) with 7.
      destruct (deref k =? SEP) eqn:Ed.
      * apply Z.eqb_eq in Ed.
        split; [now right; right|]. split; [now intros _|].
        split; [discriminate|]. split; [discriminate|].
        intros G. right. exists v. split; [reflexivity|].
        destruct (Z.of_nat (length v) <? Win32.buffer_size) eqn:Ef;
          [now destruct (NewFromTwoByte v) | now apply Z.ltb_ge].
      * apply Z.eqb_neq in Ed.
        split; [now right; left|]. split; [discriminate|].
        split; [now intros _|]. split; [discriminate|].
        intros G. right. exists v. split; [reflexivity|].
        destruct (Z.of_nat (length v) <? Win32.buffer_size) eqn:Ef;
          [now destruct (NewFromTwoByte v) | now apply Z.ltb_ge].
    + split; [now left|]. split; [discriminate|]. split; [discriminate|].
      split; [reflexivity|]. now left.
Qed.

(** [ZZ] is not in the started block: [Query] says so and [Get] agrees. *)
Lemma Query_agrees_with_Get_witness :
  fst (Win32.RealEnvStore_Query started (units "ZZ")) = -1
  /\ fst (Win32.RealEnvStore_Get started (units "ZZ")) = Ok None.
Proof.
  assert (Q : fst (Win32.RealEnvStore_Query started (units "ZZ")) = -1)
    by reflexivity.
  split; [exact Q|].
  apply (proj1 (proj2 (proj2 (proj2
           (proj2 Query_agrees_with_Get started (units "ZZ"))))) Q).
Defined.

(** ** The thread's last-error code *)

(** X4: on the UTF-16 platform neither [Get] nor [Query] depends on the
    last-error code the thread carries when the call is made: a code left
    behind by an earlier failure changes no result, so a variable whose
    value is empty still reads as found.  Afterwards the code is
    [ERROR_SUCCESS] or [ERROR_ENVVAR_NOT_FOUND]. *)
Theorem stale_last_error_is_ignored `{HostStrings} `{NameFolding} st code k :
  fst (Win32.RealEnvStore_Get (Win32.SetLastError st code) k)
  = fst (Win32.RealEnvStore_Get st k)
  /\ fst (Win32.RealEnvStore_Query (Win32.SetLastError st code) k)
     = fst (Win32.RealEnvStore_Query st k)
  /\ (Win32.lookup (Win32.block st) (c_str (TwoByteValue k)) = Some [] ->
      fst (Win32.RealEnvStore_Query (Win32.SetLastError st code) k) <> -1
      /\ fst (Win32.RealEnvStore_Get (Win32.SetLastError st code) k) <> Ok None)
  /\ (Win32.GetLastError (snd (Win32.RealEnvStore_Query st k)) = ERROR_SUCCESS
      \/ Win32.GetLastError (snd (Win32.RealEnvStore_Query st k))
         = ERROR_ENVVAR_NOT_FOUND)
  /\ (Win32.GetLastError (snd (Win32.RealEnvStore_Get st k)) = ERROR_SUCCESS
      \/ Win32.GetLastError (snd (Win32.RealEnvStore_Get st k))
         = ERROR_ENVVAR_NOT_FOUND).
Proof.
  unfold TwoByteValue.
  rewrite !Win32Facts.Get_lookup, !Win32Facts.Query_lookup.
  cbn [Win32.SetLastError Win32.block].
  split; [reflexivity|]. split; [reflexivity|]. split; [|split].
  - intros L. rewrite L. cbn [length Z.of_nat].
    change (0 <? Win32.buffer_size) with true. cbv iota.
    split; [now destruct (deref k =? SEP) | now destruct (NewFromTwoByte [])].
  - unfold Win32.RealEnvStore_Query, Win32.GetEnvironmentVariableW, TwoByteValue.
    cbn [Win32.block Win32.SetLastError].
    destruct (Win32.lookup (Win32.block st) (c_str k)) as [v|].
    + destruct (Z.of_nat (length v) <? 0);
        cbn [Win32.GetLastError Win32.last_error];
        rewrite ?Z.eqb_refl, ?orb_true_r;
        destruct (deref k =? SEP); now left.
    + now right.
  - unfold Win32.RealEnvStore_Get, Win32.GetEnvironmentVariableW, TwoByteValue.
    cbn [Win32.block Win32.SetLastError].
    destruct (Win32.lookup (Win32.block st) (c_str k)) as [v|].
    + destruct (Z.of_nat (length v) <? Win32.buffer_size);
        cbn [Win32.GetLastError Win32.last_error];
        repeat match goal with
               | |- context [if ?b then _ else _] => destruct b
               | |- context [match ?o with Some _ => _ | None => _ end] =>
                   destruct o
               end; now left.
    + now right.
Qed.

(** With a stale [ERROR_INVALID_PARAMETER], an empty value is found. *)
Lemma stale_last_error_is_ignored_witness :
  fst (Win32.RealEnvStore_Query
         (Win32.SetLastError (Win32.mkOs [units "EMPTY="] 0)
            ERROR_INVALID_PARAMETER) (units "EMPTY")) <> -1.
Proof.
  assert (L : Win32.lookup (Win32.block (Win32.mkOs [units "EMPTY="] 0))
                (c_str (TwoByteValue (units "EMPTY"))) = Some [])
    by reflexivity.
  apply (proj1 (proj1 (proj2 (proj2
           (stale_last_error_is_ignored (Win32.mkOs [units "EMPTY="] 0)
              ERROR_INVALID_PARAMETER (units "EMPTY")))) L)).
Defined.

(** ** How the store fails *)

Module Failures.
Section Store.
Context `{HostStrings} `{NameFolding}.

Lemma Posix_loop_never_throws environ e : Posix.Enumerate_loop environ <> Thrown e.
Proof.
  induction environ as [|var rest IH]; cbn [Posix.Enumerate_loop];
    [discriminate|].
  destruct (NewFromUtf8_n var (Posix.key_length var)); [|discriminate].
  destruct (Posix.Enumerate_loop rest); congruence.
Qed.

Lemma Win32_walk_outcome p env_v :
  (exists ks, Win32.Enumerate_walk p env_v = Ok ks)
  \/ Win32.Enumerate_walk p env_v = Thrown ERR_STRING_TOO_LONG.
Proof.
  functional induction (Win32.Enumerate_walk p env_v); eauto.
Qed.
End Store.
End Failures.

(** X5: the two variants of the store fail in different ways.  The
    byte-string store never leaves an exception pending: [Get] and
    [Enumerate] return or abort the process on a string the host cannot
    build.  The UTF-16 store never aborts: [Get] and [Enumerate] return or
    leave the string-too-long error pending, and no other error. *)
Theorem store_failure_modes `{HostStrings} `{NameFolding} :
  (forall environ k e,
      fst (Posix.RealEnvStore_Get environ k) <> Thrown e
      /\ fst (Posix.RealEnvStore_Enumerate environ) <> Thrown e
      /\ fst (Posix.RealEnvStore_Get environ k) <> Fatal CHECK_failed
      /\ fst (Posix.RealEnvStore_Enumerate environ) <> Fatal CHECK_failed)
  /\ (forall st k why,
      fst (Win32.RealEnvStore_Get st k) <> Fatal why
      /\ fst (Win32.RealEnvStore_Enumerate st) <> Fatal why
      /\ fst (Win32.RealEnvStore_Get st k) <> Thrown JSError
      /\ fst (Win32.RealEnvStore_Enumerate st) <> Thrown JSError).
Proof.
  split.
  - intros environ k e. rewrite PosixFrame.Get_getenv.
    cbn [Posix.RealEnvStore_Enumerate fst].
    assert (C : Posix.Enumerate_loop environ <> Fatal CHECK_failed).
    { induction environ as [|var rest IH]; cbn [Posix.Enumerate_loop];
        [discriminate|].
      destruct (NewFromUtf8_n var (Posix.key_length var)); [|discriminate].
      destruct (Posix.Enumerate_loop rest); congruence. }
    repeat split; try apply Failures.Posix_loop_never_throws; try exact C;
      destruct (Posix.getenv environ (c_str (Utf8Value k))) as [val|];
      try discriminate; destruct (NewFromUtf8_n val (-1)); discriminate.
  - intros st k why. rewrite Win32Facts.Get_lookup.
    unfold Win32.RealEnvStore_Enumerate, Win32.GetEnvironmentStringsW.
    cbn [fst].
    destruct (Failures.Win32_walk_outcome
                (flat_map (fun r => r ++ [NUL]) (Win32.block st) ++ [NUL]) [])
      as [[ks ->] | ->].
    + repeat split; try discriminate;
        destruct (Win32.lookup (Win32.block st) (c_str k)) as [v|];
        try discriminate;
        destruct (Z.of_nat (length v) <? Win32.buffer_size); try discriminate;
        destruct (NewFromTwoByte v); discriminate.
    + repeat split; try discriminate;
        destruct (Win32.lookup (Win32.block st) (c_str k)) as [v|];
        try discriminate;
        destruct (Z.of_nat (length v) <? Win32.buffer_size); try discriminate;
        destruct (NewFromTwoByte v); discriminate.
Qed.

(** ** Enumerate against Query, Set and Delete *)

Lemma build_keys_In_inv decode failure texts :
  is_failure failure ->
  forall ks k, build_keys decode failure texts = Ok ks -> In k ks ->
  exists t, In t texts /\ decode t = Some k.
Proof.
  intros Hf. induction texts as [|u us IH]; intros ks k E Hin;
    cbn [build_keys] in E.
  - injection E as <-. destruct Hin.
  - destruct (decode u) as [k0|] eqn:Eu; [|now apply Hf in E].
    destruct (build_keys decode failure us) as [ks'| |] eqn:Eus;
      try discriminate.
    injection E as <-. destruct Hin as [<- | Hin].
    + exists u. split; [now left | assumption].
    + destruct (IH ks' k eq_refl Hin) as (t & Ht & Et).
      exists t. split; [now right | assumption].
Qed.

Lemma build_keys_length decode failure texts :
  is_failure failure ->
  forall ks, build_keys decode failure texts = Ok ks ->
  length ks = length texts.
Proof.
  intros Hf. induction texts as [|u us IH]; intros ks E; cbn [build_keys] in E.
  - now injection E as <-.
  - destruct (decode u) as [k0|]; [|now apply Hf in E].
    destruct (build_keys decode failure us) as [ks'| |]; try discriminate.
    injection E as <-. cbn [length]. f_equal. now apply IH.
Qed.

Lemma forallb_filter {A : Type} (P Q : A -> bool) l :
  forallb P l = true -> forallb P (filter Q l) = true.
Proof.
  induction l as [|x l IH]; cbn [forallb filter]; [reflexivity|].
  intros E. apply andb_true_iff in E as [E1 E2].
  destruct (Q x); cbn [forallb]; [rewrite E1|]; auto.
Qed.

Lemma has_nul_firstn n : forall r, has_nul r = false -> has_nul (firstn n r) = false.
Proof.
  induction n as [|n IH]; intros [|c r] En; try reflexivity.
  rewrite has_nul_cons in En. apply orb_false_iff in En as [E1 E2].
  cbn [firstn]. rewrite has_nul_cons, E1. cbn [orb]. auto.
Qed.

Lemma has_nul_app a b :
  has_nul a = false -> has_nul b = false -> has_nul (a ++ b) = false.
Proof.
  intros Ea Eb. unfold has_nul in *. now rewrite existsb_app, Ea, Eb.
Qed.

Module PosixListing.
Import Posix.

Lemma getenv_Some_In env n v :
  has_sep n = false -> has_nul n = false ->
  getenv env n = Some v -> exists r, In r env /\ defines n r = true.
Proof.
  intros Es En.
  induction env as [|r env IH]; [discriminate|].
  rewrite PosixFacts.getenv_cons by assumption.
  destruct (negb _ && defines n r) eqn:E.
  - intros _. apply andb_true_iff in E as [_ E]. exists r. split; [now left | assumption].
  - intros G. destruct (IH G) as (r' & Hin & Hd). exists r'. split; [now right | assumption].
Qed.

Lemma defines_key_text n r : defines n r = true -> key_text r = n.
Proof.
  unfold defines, key_text. destruct (strchr r SEP); [|discriminate].
  apply str_eqb_eq.
Qed.

Lemma valued_key_text n r :
  Valued.posix r = true -> defines n r = false -> key_text r <> n.
Proof.
  unfold Valued.posix, defines, key_text.
  destruct (strchr r SEP); [|discriminate].
  intros _ E K. rewrite K, str_eqb_refl in E. discriminate.
Qed.


Lemma posix_overwrite_forallb P env n v :
  forallb P env = true -> P (n ++ SEP :: v) = true ->
  forallb P (overwrite env n v) = true.
Proof.
  intros E New. induction env as [|r env IH]; cbn [overwrite forallb];
    [now rewrite New|].
  cbn [forallb] in E. apply andb_true_iff in E as [E1 E2].
  destruct (defines n r); cbn [forallb]; [now rewrite New | rewrite E1; auto].
Qed.
End PosixListing.

Module Win32Listing.
Import Win32 Block.
Section Api.
Context `{NameFolding}.

Lemma lookup_Some_In blk n v :
  lookup blk n = Some v -> exists r, In r blk /\ defines n r = true.
Proof.
  induction blk as [|r blk IH]; cbn [lookup]; [discriminate|].
  destruct (defines n r) eqn:E.
  - intros _. exists r. split; [now left | assumption].
  - intros G. destruct (IH G) as (r' & Hin & Hd).
    exists r'. split; [now right | assumption].
Qed.

Lemma In_lookup blk n r :
  In r blk -> defines n r = true -> lookup blk n <> None.
Proof.
  induction blk as [|r0 blk IH]; intros Hin Hd; [destruct Hin|].
  cbn [lookup]. destruct (defines n r0) eqn:E.
  - unfold defines in E. now destruct (split_record r0) as [[rn v]|].
  - destruct Hin as [-> | Hin]; [congruence | auto].
Qed.

(** The key [Enumerate] builds from a visible record is the name the
    platform reads in it. *)
Lemma key_of_record r rn v :
  well_formed r = true -> hidden r = false ->
  split_record r = Some (rn, v) -> key_text r = rn.
Proof.
  unfold well_formed, hidden, split_record, key_text.
  destruct r as [|c r']; [discriminate|].
  cbn [deref hd negb andb strchr]. intros Hwf Hh.
  apply andb_true_iff in Hwf as [En _]. rewrite negb_true_iff in En.
  rewrite has_nul_cons in En. apply orb_false_iff in En as [Ec _].
  rewrite Hh, Ec.
  destruct (strchr r' SEP) as [m|]; [|discriminate].
  now intros [= <- _].
Qed.

(** A record that defines a name whose first character is not ['='] is
    not hidden. *)
Lemma defines_visible n r :
  defines n r = true -> deref n <> SEP -> hidden r = false.
Proof.
  unfold defines, hidden.
  destruct (split_record r) as [[rn v]|] eqn:E; [|discriminate].
  intros Hn Hd. unfold split_record in E.
  destruct r as [|c r']; [discriminate|].
  destruct (strchr r' SEP) as [m|]; [|discriminate].
  injection E as <- _. apply str_eqb_eq in Hn.
  destruct n as [|d tl]; [discriminate|]. cbn [map] in Hn.
  injection Hn as Hc _. cbn [deref hd] in *.
  apply Z.eqb_neq. intros ->. apply Hd. now apply upcase_sep.
Qed.


Lemma win32_overwrite_forallb P blk n v :
  forallb P blk = true -> P (n ++ SEP :: v) = true ->
  forallb P (overwrite blk n v) = true.
Proof.
  intros E New. induction blk as [|r blk IH]; cbn [overwrite forallb];
    [now rewrite New|].
  cbn [forallb] in E. apply andb_true_iff in E as [E1 E2].
  destruct (defines n r); cbn [forallb]; [now rewrite New | rewrite E1; auto].
Qed.
End Api.
End Win32Listing.

(** A key that is read under a name with a ['='] can be present without
    being listed: over the record ["A=B=c"], [Query("A=B")] reports 0 and
    [Enumerate] lists [A] alone. *)
Example present_key_with_separator_is_not_listed :
  fst (Posix.RealEnvStore_Query nested A_B) = 0
  /\ fst (Posix.RealEnvStore_Enumerate nested) = Ok [A].
Proof. split; reflexivity. Qed.

(** X6: every key that [Query] reports as present and normal is listed
    by [Enumerate]: on the byte-string platform, for a key whose native
    name holds no ['='], as the string the host builds from that name; on
    the UTF-16 platform as the name of the record that defines it, which
    equals the key up to case folding.  Records are shorter than 2^31
    units, those of the UTF-16 block non-empty and free of terminators. *)
Theorem present_keys_are_listed `{HostStrings} `{NameFolding} :
  (forall environ k ks,
      forallb short environ = true ->
      has_sep (c_str (Utf8Value k)) = false ->
      fst (Posix.RealEnvStore_Query environ k) = 0 ->
      fst (Posix.RealEnvStore_Enumerate environ) = Ok ks ->
      exists key, NewFromUtf8 (c_str (Utf8Value k)) = Some key /\ In key ks)
  /\ (forall st k ks,
      forallb Block.well_formed (Win32.block st) = true ->
      fst (Win32.RealEnvStore_Query st k) = 0 ->
      fst (Win32.RealEnvStore_Enumerate st) = Ok ks ->
      exists key,
        In key ks /\ Win32.name_eqb key (c_str (TwoByteValue k)) = true).
Proof.
  split.
  - intros environ k ks Hs Es Q E.
    rewrite PosixFrame.Query_getenv in Q.
    destruct (Posix.getenv environ (c_str (Utf8Value k))) as [v|] eqn:G;
      [|discriminate].
    destruct (PosixListing.getenv_Some_In _ _ _ Es (c_str_no_nul _) G)
      as (r & Hin & Hd).
    apply PosixListing.defines_key_text in Hd.
    cbn [Posix.RealEnvStore_Enumerate fst] in E.
    rewrite PosixEnumerate.Enumerate_loop_keys in E by assumption.
    rewrite <- Hd.
    apply (build_keys_In NewFromUtf8 (Fatal ToLocalChecked_empty)
             (map key_text environ)); [discriminate | assumption |].
    now apply in_map.
  - intros st k ks Hwf Q E. unfold TwoByteValue.
    rewrite Win32Facts.Query_lookup in Q.
    destruct (Win32.lookup (Win32.block st) (c_str k)) as [v|] eqn:L;
      [|discriminate].
    destruct (deref k =? SEP) eqn:Ed; [discriminate|].
    apply Z.eqb_neq in Ed.
    destruct (Win32Listing.lookup_Some_In _ _ _ L) as (r & Hin & Hd).
    assert (Hv : Block.hidden r = false).
    { apply (Win32Listing.defines_visible (c_str k)); [assumption|].
      now rewrite Win32Facts.deref_c_str. }
    pose proof (proj1 (forallb_forall _ _) Hwf r Hin) as Hr.
    unfold Win32.defines in Hd.
    destruct (Win32.split_record r) as [[rn w]|] eqn:Es; [|discriminate].
    pose proof (Win32Listing.key_of_record r rn w Hr Hv Es) as Hk.
    rewrite Win32Enumerate.Enumerate_keys in E by assumption.
    destruct (build_keys_In NewFromTwoByte (Thrown ERR_STRING_TOO_LONG)
                (map key_text
                   (filter (fun r => negb (Block.hidden r)) (Win32.block st)))
                ltac:(discriminate) ks (key_text r) E)
      as (key & Ekey & Hkey).
    + apply in_map, filter_In. split; [assumption | now rewrite Hv].
    + apply NewFromTwoByte_exact in Ekey. subst key. rewrite Hk in Hkey.
      now exists rn.
Qed.

(** [HOME] and [path] are present, hence listed. *)
Lemma present_keys_are_listed_witness :
  (exists key,
      NewFromUtf8 (c_str (Utf8Value (units "HOME"))) = Some key
      /\ In key [units "HOME"; units "NOSEP"; units "EMPTY"])
  /\ (exists key,
        In key [units "PATH"; units "NOSEP"]
        /\ Win32.name_eqb key (c_str (TwoByteValue (units "path"))) = true).
Proof.
  split.
  - apply (proj1 present_keys_are_listed inherited (units "HOME"));
      reflexivity.
  - apply (proj2 present_keys_are_listed started (units "path"));
      reflexivity.
Defined.

(** X7: on the UTF-16 platform, when every record of the block carries a
    value, every key that [Enumerate] lists is reported as present and
    normal by [Query]. *)
Theorem listed_keys_are_present `{HostStrings} `{NameFolding} st ks key :
  forallb Block.well_formed (Win32.block st) = true ->
  forallb Valued.win32 (Win32.block st) = true ->
  fst (Win32.RealEnvStore_Enumerate st) = Ok ks ->
  In key ks ->
  fst (Win32.RealEnvStore_Query st key) = 0.
Proof.
  intros Hwf Hval E Hin.
  rewrite Win32Enumerate.Enumerate_keys in E by assumption.
  destruct (build_keys_In_inv NewFromTwoByte (Thrown ERR_STRING_TOO_LONG) _
              ltac:(discriminate) ks key E Hin) as (t & Ht & Et).
  apply NewFromTwoByte_exact in Et. subst key.
  apply in_map_iff in Ht as (r & <- & Hr).
  apply filter_In in Hr as [Hr Hv]. rewrite negb_true_iff in Hv.
  pose proof (proj1 (forallb_forall _ _) Hwf r Hr) as Wr.
  pose proof (proj1 (forallb_forall _ _) Hval r Hr) as Vr.
  unfold Valued.win32 in Vr.
  destruct (Win32.split_record r) as [[rn w]|] eqn:Es; [|discriminate].
  rewrite (Win32Listing.key_of_record r rn w Wr Hv Es).
  assert (En : has_nul rn = false).
  { rewrite <- (Win32Listing.key_of_record r rn w Wr Hv Es).
    unfold Block.well_formed in Wr.
    apply andb_true_iff in Wr as [Wr _]. apply andb_true_iff in Wr as [_ Wn].
    rewrite negb_true_iff in Wn. unfold key_text.
    destruct (strchr r SEP); [now apply has_nul_firstn | apply c_str_no_nul]. }
  assert (Hd : deref rn <> SEP).
  { unfold Block.hidden in Hv. apply Z.eqb_neq in Hv.
    unfold Win32.split_record in Es. destruct r as [|c r']; [discriminate|].
    destruct (strchr r' SEP); [|discriminate]. now injection Es as <- _. }
  rewrite Win32Facts.Query_lookup, (c_str_fixed rn En).
  destruct (Win32.lookup (Win32.block st) rn) eqn:L.
  - apply Z.eqb_neq in Hd. now rewrite Hd.
  - exfalso. apply (Win32Listing.In_lookup (Win32.block st) rn r Hr); [|exact L].
    unfold Win32.defines. rewrite Es. apply Win32Facts.name_eqb_refl.
Qed.

(** [PATH] is listed in a block whose records all carry a value. *)
Lemma listed_keys_are_present_witness :
  fst (Win32.RealEnvStore_Query
         (Win32.mkOs [units "=C:=C:\node"; units "PATH=C:\bin"] 0)
         (units "PATH")) = 0.
Proof.
  apply (listed_keys_are_present
           (Win32.mkOs [units "=C:=C:\node"; units "PATH=C:\bin"] 0)
           [units "PATH"] (units "PATH"));
    [reflexivity | reflexivity | reflexivity | now left].
Defined.

(** ** What Set and Delete keep true of the environment *)

Module Invariants.
Import Block.

Lemma new_record_no_nul n v :
  has_nul n = false -> has_nul v = false -> has_nul (n ++ SEP :: v) = false.
Proof.
  intros En Ev. apply has_nul_app; [assumption|].
  now rewrite has_nul_cons, Ev.
Qed.

Lemma new_record_well_formed n v :
  n <> [] -> has_nul n = false -> has_nul v = false ->
  short (n ++ SEP :: v) = true -> well_formed (n ++ SEP :: v) = true.
Proof.
  intros Hn En Ev Hs. unfold well_formed.
  rewrite Hs, new_record_no_nul by assumption.
  destruct n; [contradiction | reflexivity].
Qed.

Lemma new_record_valued_posix n v :
  has_nul n = false -> has_sep n = false -> Valued.posix (n ++ SEP :: v) = true.
Proof.
  intros En Es. unfold Valued.posix. now rewrite strchr_record.
Qed.

Lemma new_record_valued_win32 n v :
  Win32.valid_name n = true -> has_nul n = false ->
  Valued.win32 (n ++ SEP :: v) = true.
Proof.
  intros Ev En. destruct n as [|c tl]; [discriminate|].
  cbn [Win32.valid_name] in Ev. rewrite negb_true_iff in Ev.
  unfold Valued.win32. now rewrite Win32Facts.split_new_record.
Qed.
End Invariants.

(** X8: [Set] and [Delete] keep the environment in shape.  On the
    UTF-16 platform every record of the block stays non-empty and free of
    terminators (and shorter than 2^31 units when the record written is),
    so the block [Enumerate] walks is still the sequence of its records;
    on both platforms, an environment in which every record carries a
    value stays so: [Set] never writes a record without separator. *)
Theorem store_keeps_records_in_shape `{HostStrings} `{NameFolding} :
  (forall st k v,
      forallb Block.well_formed (Win32.block st) = true ->
      short (c_str (TwoByteValue k) ++ SEP :: c_str (TwoByteValue v)) = true ->
      forallb Block.well_formed (Win32.block (Win32.RealEnvStore_Set st k v))
      = true)
  /\ (forall st k,
      forallb Block.well_formed (Win32.block st) = true ->
      forallb Block.well_formed (Win32.block (Win32.RealEnvStore_Delete st k))
      = true)
  /\ (forall st k v,
      forallb Valued.win32 (Win32.block st) = true ->
      forallb Valued.win32 (Win32.block (Win32.RealEnvStore_Set st k v)) = true
      /\ forallb Valued.win32 (Win32.block (Win32.RealEnvStore_Delete st k))
         = true)
  /\ (forall environ k v,
      forallb Valued.posix environ = true ->
      forallb Valued.posix (Posix.RealEnvStore_Set environ k v) = true
      /\ forallb Valued.posix (Posix.RealEnvStore_Delete environ k) = true).
Proof.
  unfold TwoByteValue. split; [|split; [|split]].
  - intros st k v Hwf Hs. rewrite Win32Frame.Set_block_cases.
    destruct (negb (deref k =? SEP) && Win32.valid_name (c_str k)) eqn:E;
      [|assumption].
    apply andb_true_iff in E as [_ Ev].
    apply Win32Listing.win32_overwrite_forallb; [assumption|].
    apply Invariants.new_record_well_formed; auto using c_str_no_nul.
    intros N. rewrite N in Ev. discriminate.
  - intros st k Hwf. rewrite Win32Frame.Delete_block_cases.
    destruct (Win32.valid_name (c_str k)); [|assumption].
    now apply forallb_filter.
  - intros st k v Hval. split.
    + rewrite Win32Frame.Set_block_cases.
      destruct (negb (deref k =? SEP) && Win32.valid_name (c_str k)) eqn:E;
        [|assumption].
      apply andb_true_iff in E as [_ Ev].
      apply Win32Listing.win32_overwrite_forallb; [assumption|].
      apply Invariants.new_record_valued_win32; auto using c_str_no_nul.
    + rewrite Win32Frame.Delete_block_cases.
      destruct (Win32.valid_name (c_str k)); [|assumption].
      now apply forallb_filter.
  - intros environ k v Hval. split.
    + unfold Posix.RealEnvStore_Set, Posix.setenv.
      destruct (Posix.valid_name (c_str (Utf8Value k))) eqn:Ev; [|assumption].
      unfold Posix.valid_name in Ev. apply andb_true_iff in Ev as [_ Es].
      rewrite negb_true_iff in Es.
      apply PosixListing.posix_overwrite_forallb; [assumption|].
      apply Invariants.new_record_valued_posix; auto using c_str_no_nul.
    + unfold Posix.RealEnvStore_Delete, Posix.unsetenv.
      destruct (Posix.valid_name (c_str (Utf8Value k))); [|assumption].
      now apply forallb_filter.
Qed.

(** The started block stays well-formed when [FOO] is set. *)
Lemma store_keeps_records_in_shape_witness :
  forallb Block.well_formed (Win32.block (Win32.RealEnvStore_Set started FOO bar))
  = true.
Proof.
  apply (proj1 store_keeps_records_in_shape started FOO bar); reflexivity.
Defined.



(** X10: a key that has just been deleted is not listed, provided every
    record of the environment carries a value.  On the UTF-16 platform no
    key that [Enumerate] lists after [Delete(k)] equals [k], even up to
    case folding; on the byte-string platform the native name of [k], when
    it is not empty, is the key text of no record left, and [Enumerate]
    builds its keys from these texts. *)
Theorem deleted_key_is_not_listed `{HostStrings} `{NameFolding} :
  (forall environ k,
      forallb short environ = true ->
      forallb Valued.posix environ = true ->
      c_str (Utf8Value k) <> [] ->
      fst (Posix.RealEnvStore_Enumerate (Posix.RealEnvStore_Delete environ k))
      = build_keys NewFromUtf8 (Fatal ToLocalChecked_empty)
          (map key_text (Posix.RealEnvStore_Delete environ k))
      /\ ~ In (c_str (Utf8Value k))
             (map key_text (Posix.RealEnvStore_Delete environ k)))
  /\ (forall st k ks key,
      forallb Block.well_formed (Win32.block st) = true ->
      forallb Valued.win32 (Win32.block st) = true ->
      fst (Win32.RealEnvStore_Enumerate (Win32.RealEnvStore_Delete st k)) = Ok ks ->
      In key ks ->
      Win32.name_eqb key (c_str (TwoByteValue k)) = false).
Proof.
  split.
  - intros environ k Hs Hval Hne.
    assert (Hs' : forallb short (Posix.RealEnvStore_Delete environ k) = true).
    { unfold Posix.RealEnvStore_Delete, Posix.unsetenv.
      destruct (Posix.valid_name _); [now apply forallb_filter | assumption]. }
    split.
    + cbn [Posix.RealEnvStore_Enumerate fst].
      now apply PosixEnumerate.Enumerate_loop_keys.
    + intros Hin. apply in_map_iff in Hin as (r & Hk & Hr).
      assert (Hd : Posix.defines (c_str (Utf8Value k)) r = false).
      { unfold Posix.RealEnvStore_Delete, Posix.unsetenv in Hr.
        destruct (Posix.valid_name (c_str (Utf8Value k))) eqn:Ev.
        - apply filter_In in Hr as [_ Hr]. now rewrite negb_true_iff in Hr.
        - apply PosixFacts.defines_sep. unfold Posix.valid_name in Ev.
          destruct (c_str (Utf8Value k)); [contradiction|].
          cbn [negb andb] in Ev. now rewrite negb_false_iff in Ev. }
      assert (Hv : Valued.posix r = true).
      { apply (proj1 (forallb_forall _ _) Hval).
        unfold Posix.RealEnvStore_Delete, Posix.unsetenv in Hr.
        destruct (Posix.valid_name _); [|assumption].
        now apply filter_In in Hr as [Hr _]. }
      exact (PosixListing.valued_key_text _ r Hv Hd Hk).
  - unfold TwoByteValue. intros st k ks key Hwf Hval E Hin.
    assert (Hsub : forall r, In r (Win32.block (Win32.RealEnvStore_Delete st k)) ->
                   In r (Win32.block st)
                   /\ Win32.defines (c_str k) r = false).
    { intros r Hr. rewrite Win32Frame.Delete_block_cases in Hr.
      destruct (Win32.valid_name (c_str k)) eqn:Ev.
      - apply filter_In in Hr as [Hr Hd]. now rewrite negb_true_iff in Hd.
      - split; [assumption | now apply Win32Facts.defines_invalid]. }
    assert (Hwf' : forallb Block.well_formed
                     (Win32.block (Win32.RealEnvStore_Delete st k)) = true).
    { rewrite Win32Frame.Delete_block_cases.
      destruct (Win32.valid_name (c_str k)); [now apply forallb_filter|].
      assumption. }
    rewrite Win32Enumerate.Enumerate_keys in E by assumption.
    destruct (build_keys_In_inv NewFromTwoByte (Thrown ERR_STRING_TOO_LONG) _
                ltac:(discriminate) ks key E Hin) as (t & Ht & Et).
    apply NewFromTwoByte_exact in Et. subst key.
    apply in_map_iff in Ht as (r & <- & Hr).
    apply filter_In in Hr as [Hr Hv]. rewrite negb_true_iff in Hv.
    destruct (Hsub r Hr) as [Hr0 Hd].
    pose proof (proj1 (forallb_forall _ _) Hwf r Hr0) as Wr.
    pose proof (proj1 (forallb_forall _ _) Hval r Hr0) as Vr.
    unfold Valued.win32 in Vr. unfold Win32.defines in Hd.
    destruct (Win32.split_record r) as [[rn w]|] eqn:Es; [|discriminate].
    now rewrite (Win32Listing.key_of_record r rn w Wr Hv Es).
Qed.

(** After [Delete("path")] only [A] is listed; after [Delete("HOME")]
    no record with the key text [HOME] is left. *)
Lemma deleted_key_is_not_listed_witness :
  Win32.name_eqb (units "A") (c_str (TwoByteValue (units "path"))) = false
  /\ ~ In (c_str (Utf8Value (units "HOME")))
         (map key_text
            (Posix.RealEnvStore_Delete [units "HOME=/root"; units "EMPTY="]
               (units "HOME"))).
Proof.
  split.
  - apply (proj2 deleted_key_is_not_listed
             (Win32.mkOs [units "A=1"; units "PATH=C:\bin"] 0)
             (units "path") [units "A"] (units "A"));
      [reflexivity | reflexivity | reflexivity | now left].
  - apply (proj1 deleted_key_is_not_listed
             [units "HOME=/root"; units "EMPTY="] (units "HOME"));
      try reflexivity. vm_compute. discriminate.
Defined.

(** ** The interceptors over the two stores *)

Module FacadeOverStore.
Import Facade Writes.
Section Interceptors.
Context {S : Type} `{KVStore S} `{HostValues}.

(** A write that is not aborted hands the two string forms to [Set]. *)
Lemma EnvSetter_sets name value env key value_string :
  notification_fails env value = false ->
  ToString name = Some key -> ToString value = Some value_string ->
  envvars (snd (EnvSetter name value env)) = kv_Set (envvars env) key value_string.
Proof.
  intros N Ek Ev.
  pose proof (FacadeFacts.EnvSetter_completes name value env N key
                value_string Ek Ev) as R.
  destruct (FacadeFacts.EnvSetter_store name value env)
    as [(_ & _ & T) | (key' & vs' & Ek' & Ev' & E & _)]; [congruence|].
  congruence.
Qed.

Lemma EnvGetter_string key env :
  fst (EnvGetter (VString key) env) = lift_string (fst (kv_Get (envvars env) key)).
Proof.
  unfold EnvGetter. cbn [IsSymbol IsString negb AsString].
  now destruct (kv_Get (envvars env) key).
Qed.

Lemma EnvQuery_string key env :
  fst (EnvQuery (VString key) env) =
  if negb (fst (kv_Query (envvars env) key) =? -1)
  then Ok (Some (fst (kv_Query (envvars env) key)))
  else Ok None.
Proof.
  unfold EnvQuery. cbn [IsString AsString].
  destruct (kv_Query (envvars env) key) as [rc s]. cbn [fst].
  now destruct (negb (rc =? -1)).
Qed.

Lemma EnvDeleter_string key env :
  envvars (snd (EnvDeleter (VString key) env)) = kv_Delete (envvars env) key.
Proof. reflexivity. Qed.
End Interceptors.
End FacadeOverStore.

#[local] Existing Instance Posix.RealEnvStore.
#[local] Existing Instance Win32.RealEnvStore.

(** X11: a write can be read back.  When the deprecation notice, if one
    is due, is delivered, the value has a string form that converts to the
    native form and back without loss, and the platform accepts the key,
    [Write(k, value)] followed by [Read(k)] yields that string form, and
    [Check(k)] yields the descriptor 0, on either platform. *)
Theorem write_then_read `{HostStrings} `{NameFolding} `{HostValues} :
  (forall (env : Environment Posix.Environ) k value value_string,
      Writes.notification_fails env value = false ->
      ToString value = Some value_string ->
      Posix.valid_name (c_str (Utf8Value k)) = true ->
      NewFromUtf8 (c_str (Utf8Value value_string)) = Some value_string ->
      fst (Facade.EnvGetter (VString k)
             (snd (Facade.EnvSetter (VString k) value env)))
      = Ok (Some (VString value_string))
      /\ fst (Facade.EnvQuery (VString k)
                (snd (Facade.EnvSetter (VString k) value env)))
         = Ok (Some 0))
  /\ (forall (env : Environment Win32.OsState) k value value_string,
      Writes.notification_fails env value = false ->
      ToString value = Some value_string ->
      deref (TwoByteValue k) <> SEP ->
      Win32.valid_name (c_str (TwoByteValue k)) = true ->
      Z.of_nat (length (c_str (TwoByteValue value_string))) < Win32.buffer_size ->
      NewFromTwoByte (c_str (TwoByteValue value_string)) = Some value_string ->
      fst (Facade.EnvGetter (VString k)
             (snd (Facade.EnvSetter (VString k) value env)))
      = Ok (Some (VString value_string))
      /\ fst (Facade.EnvQuery (VString k)
                (snd (Facade.EnvSetter (VString k) value env)))
         = Ok (Some 0)).
Proof.
  split.
  - intros env k value vs N Ev Ek Er.
    rewrite FacadeOverStore.EnvGetter_string, FacadeOverStore.EnvQuery_string.
    rewrite (FacadeOverStore.EnvSetter_sets (VString k) value env k vs N
               eq_refl Ev).
    cbn [kv_Get kv_Query kv_Set Posix.RealEnvStore].
    rewrite PosixFacts.posix_Set_Get, PosixFacts.posix_Set_Query by assumption.
    now split.
  - intros env k value vs N Ev Ed Ek Ef Er.
    rewrite FacadeOverStore.EnvGetter_string, FacadeOverStore.EnvQuery_string.
    rewrite (FacadeOverStore.EnvSetter_sets (VString k) value env k vs N
               eq_refl Ev).
    cbn [kv_Get kv_Query kv_Set Win32.RealEnvStore].
    rewrite Win32Facts.win32_Set_Get, Win32Facts.win32_Set_Query by assumption.
    now split.
Qed.

(** [process.env.FOO = null] reads back as ["null"]. *)
Lemma write_then_read_witness :
  fst (Facade.EnvGetter (VString FOO)
         (snd (Facade.EnvSetter (VString FOO) VNull (fresh inherited true))))
  = Ok (Some (VString (units "null")))
  /\ fst (Facade.EnvGetter (VString FOO)
            (snd (Facade.EnvSetter (VString FOO) VNull (fresh started true))))
     = Ok (Some (VString (units "null"))).
Proof.
  split.
  - apply (proj1 write_then_read (fresh inherited true) FOO VNull
             (units "null")); reflexivity.
  - apply (proj2 write_then_read (fresh started true) FOO VNull
             (units "null")); try reflexivity. vm_compute. discriminate.
Defined.

(** X12: on the UTF-16 platform a write to a key that starts with ['=']
    reports success and stores nothing: when the write is not aborted its
    result is the value written, one call to [Set] is made, and the store
    is left exactly as it was. *)
Theorem hidden_write_is_silently_dropped `{HostStrings} `{NameFolding}
    `{HostValues} (env : Environment Win32.OsState) k value value_string :
  deref (TwoByteValue k) = SEP ->
  Writes.notification_fails env value = false ->
  ToString value = Some value_string ->
  fst (Facade.EnvSetter (VString k) value env) = Ok (Some value)
  /\ envvars (snd (Facade.EnvSetter (VString k) value env)) = envvars env
  /\ calls (snd (Facade.EnvSetter (VString k) value env))
     = calls env ++ [CallSet k value_string].
Proof.
  intros Hd N Ev. split; [|split].
  - now apply (FacadeFacts.EnvSetter_completes (VString k) value env N k
                 value_string).
  - rewrite (FacadeOverStore.EnvSetter_sets (VString k) value env k value_string
               N eq_refl Ev).
    cbn [kv_Set Win32.RealEnvStore]. now apply Win32Facts.Set_hidden.
  - pose proof (FacadeFacts.EnvSetter_completes (VString k) value env N k
                  value_string eq_refl Ev) as R.
    destruct (FacadeFacts.EnvSetter_store (VString k) value env)
      as [(_ & _ & T) | (key' & vs' & Ek' & Ev' & _ & C & _)]; [congruence|].
    cbn [ToString] in Ek'. congruence.
Qed.

(** [process.env["=C:"] = "bar"] returns ["bar"] and changes nothing. *)
Lemma hidden_write_is_silently_dropped_witness :
  fst (Facade.EnvSetter (VString drive) (VString bar) (fresh started false))
  = Ok (Some (VString bar))
  /\ envvars (snd (Facade.EnvSetter (VString drive) (VString bar)
                     (fresh started false))) = started.
Proof.
  pose proof (hidden_write_is_silently_dropped (fresh started false) drive
                (VString bar) bar eq_refl eq_refl eq_refl) as W.
  split; [exact (proj1 W) | exact (proj1 (proj2 W))].
Defined.

(** A key that is read under a name with a ['='] can outlive its
    removal: over the record ["A=B=c"], [Remove("A=B")] reports success,
    and [Read("A=B")] still yields ["c"] and [Check("A=B")] still 0. *)
Example removed_key_with_separator_is_still_read :
  fst (Facade.EnvDeleter (VString A_B) (fresh nested false)) = Ok (Some true)
  /\ fst (Facade.EnvGetter (VString A_B)
            (snd (Facade.EnvDeleter (VString A_B) (fresh nested false))))
     = Ok (Some (VString c))
  /\ fst (Facade.EnvQuery (VString A_B)
            (snd (Facade.EnvDeleter (VString A_B) (fresh nested false))))
     = Ok (Some 0).
Proof. split; [|split]; reflexivity. Qed.

(** X13: a removed key reads as undefined.  After [Remove(k)] for a
    string key, [Read(k)] sets no result value and [Check(k)] produces no
    descriptor: on the byte-string platform for every key whose native
    name holds no ['='], on the UTF-16 platform whatever the key. *)
Theorem remove_then_read `{HostStrings} `{NameFolding} :
  (forall (env : Environment Posix.Environ) k,
      has_sep (c_str (Utf8Value k)) = false ->
      fst (Facade.EnvGetter (VString k) (snd (Facade.EnvDeleter (VString k) env)))
      = Ok None
      /\ fst (Facade.EnvQuery (VString k)
                (snd (Facade.EnvDeleter (VString k) env))) = Ok None)
  /\ (forall (env : Environment Win32.OsState) k,
      fst (Facade.EnvGetter (VString k) (snd (Facade.EnvDeleter (VString k) env)))
      = Ok None
      /\ fst (Facade.EnvQuery (VString k)
                (snd (Facade.EnvDeleter (VString k) env))) = Ok None).
Proof.
  split.
  - intros env k Es.
    rewrite FacadeOverStore.EnvGetter_string, FacadeOverStore.EnvQuery_string.
    rewrite FacadeOverStore.EnvDeleter_string.
    cbn [kv_Get kv_Query kv_Delete Posix.RealEnvStore].
    rewrite PosixFacts.posix_Delete_Get, PosixFrame.Query_getenv by assumption.
    unfold Posix.RealEnvStore_Delete.
    now rewrite PosixFacts.getenv_unsetenv by auto using c_str_no_nul.
  - intros env k.
    rewrite FacadeOverStore.EnvGetter_string, FacadeOverStore.EnvQuery_string.
    rewrite FacadeOverStore.EnvDeleter_string.
    cbn [kv_Get kv_Query kv_Delete Win32.RealEnvStore].
    rewrite Win32Facts.win32_Delete_Get, Win32Facts.Query_lookup.
    now rewrite Win32Facts.Delete_lookup.
Qed.

(** [delete process.env.HOME], then reading and checking [HOME]. *)
Lemma remove_then_read_witness :
  has_sep (c_str (Utf8Value (units "HOME"))) = false
  /\ fst (Facade.EnvGetter (VString (units "HOME")) (fresh inherited false))
     = Ok (Some (VString (units "/root")))
  /\ fst (Facade.EnvGetter (VString (units "HOME"))
            (snd (Facade.EnvDeleter (VString (units "HOME"))
                    (fresh inherited false)))) = Ok None
  /\ fst (Facade.EnvQuery (VString (units "HOME"))
            (snd (Facade.EnvDeleter (VString (units "HOME"))
                    (fresh inherited false)))) = Ok None.
Proof.
  assert (E : has_sep (c_str (Utf8Value (units "HOME"))) = false)
    by reflexivity.
  split; [exact E|]. split; [reflexivity|].
  exact (proj1 remove_then_read (fresh inherited false) (units "HOME") E).
Defined.

(** X14: an existence check never fails and never surfaces the "not
    present" sentinel: [EnvQuery] always returns normally, its descriptor
    is never -1, a name that is not a string produces no descriptor and
    does not reach the store, and every other answer of [Query] is passed
    on unchanged. *)
Theorem check_never_yields_sentinel {S : Type} `{KVStore S}
    (property : Value) (env : Environment S) :
  (exists rv, fst (Facade.EnvQuery property env) = Ok rv /\ rv <> Some (-1))
  /\ (IsString property = false -> Facade.EnvQuery property env = (Ok None, env))
  /\ (forall key,
        property = VString key ->
        fst (kv_Query (envvars env) key) <> -1 ->
        fst (Facade.EnvQuery property env)
        = Ok (Some (fst (kv_Query (envvars env) key))))
  /\ (forall key,
        property = VString key ->
        fst (kv_Query (envvars env) key) = -1 ->
        fst (Facade.EnvQuery property env) = Ok None).
Proof.
  split; [|split; [|split]].
  - destruct (IsString property) eqn:E.
    + destruct property; try discriminate E.
      rewrite FacadeOverStore.EnvQuery_string.
      destruct (fst (kv_Query (envvars env) s) =? -1) eqn:Q; cbn [negb].
      * exists None. split; [reflexivity | discriminate].
      * apply Z.eqb_neq in Q. eexists. split; [reflexivity|]. congruence.
    + exists None. unfold Facade.EnvQuery. rewrite E.
      split; [reflexivity | discriminate].
  - intros E. unfold Facade.EnvQuery. now rewrite E.
  - intros key -> Q. rewrite FacadeOverStore.EnvQuery_string.
    apply Z.eqb_neq in Q. now rewrite Q.
  - intros key -> Q. rewrite FacadeOverStore.EnvQuery_string.
    apply Z.eqb_eq in Q. now rewrite Q.
Qed.

(** [FOO] is not in the inherited environment: no descriptor. *)
Lemma check_never_yields_sentinel_witness :
  fst (Facade.EnvQuery (VString FOO) (fresh inherited false)) = Ok None.
Proof.
  assert (Q : fst (kv_Query (envvars (fresh inherited false)) FOO) = -1)
    by reflexivity.
  apply (proj2 (proj2 (proj2 (check_never_yields_sentinel (VString FOO)
                                (fresh inherited false)))) FOO eq_refl Q).
Defined.

(** ** Sequences of accesses to the proxy object *)

Module ProxyFacts.
Import Facade Proxy.
Section Interceptors.
Context {S : Type} `{KVStore S} `{HostValues}.

(** Only a write touches the warning state. *)
Lemma intercept_quiet a env :
  is_write a = false ->
  notices (intercept a env) = notices env
  /\ emit_env_nonstring_warning_ (intercept a env)
     = emit_env_nonstring_warning_ env
  /\ pending_deprecation (intercept a env) = pending_deprecation env.
Proof.
  destruct a as [name|name value|name|name|]; try discriminate; intros _;
    cbn [intercept].
  - unfold EnvGetter.
    destruct (IsSymbol name); [now repeat split|].
    destruct (negb (IsString name)); [now repeat split|].
    now destruct (kv_Get (envvars env) (AsString name)).
  - unfold EnvQuery. destruct (IsString name); [|now repeat split].
    destruct (kv_Query (envvars env) (AsString name)) as [rc s].
    now destruct (negb (rc =? -1)).
  - unfold EnvDeleter. now destruct (IsString name).
  - unfold EnvEnumerator. now destruct (kv_Enumerate (envvars env)).
Qed.

Lemma intercept_flag_off a env :
  emit_env_nonstring_warning_ env = false ->
  emit_env_nonstring_warning_ (intercept a env) = false
  /\ notices (intercept a env) = notices env.
Proof.
  intros F. destruct (is_write a) eqn:W.
  - destruct a; try discriminate. cbn [intercept]. split.
    + now apply FacadeFacts.EnvSetter_flag_off.
    + now apply FacadeFacts.EnvSetter_quiet.
  - destruct (intercept_quiet a env W) as (N & F' & _). split; congruence.
Qed.

Lemma accesses_flag_off l : forall env,
  emit_env_nonstring_warning_ env = false ->
  notices (accesses l env) = notices env.
Proof.
  induction l as [|a l IH]; intros env F; cbn [accesses]; [reflexivity|].
  destruct (intercept_flag_off a env F) as [F' N'].
  now rewrite IH, N'.
Qed.

Lemma intercept_notices a env :
  notices (intercept a env) = notices env
  \/ (emit_env_nonstring_warning_ (intercept a env) = false
      /\ length (notices (intercept a env)) = (length (notices env) + 1)%nat).
Proof.
  destruct (is_write a) eqn:W.
  - destruct a; try discriminate. cbn [intercept].
    rewrite FacadeFacts.EnvSetter_notices.
    destruct (Writes.qualifies env value && emit_env_nonstring_warning_ env)
      eqn:Q; [|now left].
    right. apply andb_true_iff in Q as [Q _]. split.
    + now apply FacadeFacts.EnvSetter_flag_used.
    + rewrite length_app. reflexivity.
  - left. apply (intercept_quiet a env W).
Qed.

(** Every interceptor makes at most one call on the store. *)
Lemma intercept_calls a env :
  calls (intercept a env) = calls env
  \/ exists c, calls (intercept a env) = calls env ++ [c].
Proof.
  destruct a as [name|name value|name|name|]; cbn [intercept].
  - unfold EnvGetter.
    destruct (IsSymbol name); [now left|].
    destruct (negb (IsString name)); [now left|].
    destruct (kv_Get (envvars env) (AsString name)). right. now eexists.
  - destruct (FacadeFacts.EnvSetter_store name value env)
      as [(_ & C & _) | (key & vs & _ & _ & _ & C & _)];
      [now left | right; eexists; exact C].
  - unfold EnvQuery. destruct (IsString name); [|now left].
    destruct (kv_Query (envvars env) (AsString name)) as [rc s].
    right. destruct (negb (rc =? -1)); now eexists.
  - unfold EnvDeleter. destruct (IsString name); [|now left].
    right. now eexists.
  - unfold EnvEnumerator. destruct (kv_Enumerate (envvars env)).
    right. now eexists.
Qed.
End Interceptors.
End ProxyFacts.

(** X15: over any sequence of accesses to the proxy object, reads,
    writes, checks, removals and listings in any order, at most one
    deprecation notice is handed to the collaborator; a sequence without
    writes hands over none and leaves the warning due; and the store is
    called at most once per access. *)
Theorem accesses_emit_one_notice {S : Type} `{KVStore S} `{HostValues}
    (l : list Proxy.Access) (env : Environment S) :
  (length (notices (Proxy.accesses l env)) <= length (notices env) + 1)%nat
  /\ (forallb (fun a => negb (Proxy.is_write a)) l = true ->
      notices (Proxy.accesses l env) = notices env
      /\ emit_env_nonstring_warning_ (Proxy.accesses l env)
         = emit_env_nonstring_warning_ env)
  /\ (length (calls env) <= length (calls (Proxy.accesses l env))
      <= length (calls env) + length l)%nat.
Proof.
  split; [|split].
  - revert env. induction l as [|a l IH]; intros env; cbn [Proxy.accesses];
      [lia|].
    destruct (ProxyFacts.intercept_notices a env) as [N | [F N]].
    + specialize (IH (Proxy.intercept a env)). rewrite N in IH. exact IH.
    + rewrite (ProxyFacts.accesses_flag_off l _ F). lia.
  - revert env. induction l as [|a l IH]; intros env; cbn [Proxy.accesses forallb];
      [now split|].
    intros E. apply andb_true_iff in E as [Ea El]. rewrite negb_true_iff in Ea.
    destruct (ProxyFacts.intercept_quiet a env Ea) as (N & F & _).
    destruct (IH (Proxy.intercept a env) El) as [N' F']. split; congruence.
  - revert env. induction l as [|a l IH]; intros env; cbn [Proxy.accesses length];
      [lia|].
    specialize (IH (Proxy.intercept a env)).
    destruct (ProxyFacts.intercept_calls a env) as [C | [c C]];
      rewrite C in IH; rewrite ?length_app in IH; cbn [length] in IH; lia.
Qed.

(** Two reads and a check hand no notice over. *)
Lemma accesses_emit_one_notice_witness :
  notices (Proxy.accesses
             [Proxy.Read (VString FOO); Proxy.Check (VString FOO); Proxy.List]
             (fresh inherited true)) = [].
Proof.
  apply (proj1 (proj2 (accesses_emit_one_notice
                         [Proxy.Read (VString FOO); Proxy.Check (VString FOO);
                          Proxy.List]
                         (fresh inherited true)))
           eq_refl).
Defined.

(** ** What Get reads back, and the names the platform refuses *)

Module Win32Folding.
Import Win32.
Section Api.
Context `{NameFolding}.

Lemma defines_fold n n' r : name_eqb n n' = true -> defines n' r = defines n r.
Proof.
  unfold defines, name_eqb. intros E. apply str_eqb_eq in E.
  destruct (split_record r) as [[rn v]|]; [|reflexivity]. now rewrite E.
Qed.

Lemma lookup_fold blk n n' : name_eqb n n' = true -> lookup blk n' = lookup blk n.
Proof.
  intros E. induction blk as [|r blk IH]; cbn [lookup]; [reflexivity|].
  now rewrite (defines_fold n n' r E), IH.
Qed.
End Api.
End Win32Folding.

(** X16: what [Get] reads back after [Set] is the native value, cut at
    its first NUL.  When the platform accepts the key, [Set(k, v)]
    followed by [Get(k')], for any [k'] with the same native name as [k]
    (the same text before the first NUL; on the UTF-16 platform the same
    up to case folding), returns the string the host builds from the
    native form of [v] up to its first NUL: on the UTF-16 platform, where
    the value must fit the buffer, exactly the code units of [v] before
    its first NUL.  When the host cannot build the string, the byte-string
    store aborts and the UTF-16 store raises the string-too-long
    error. *)
Theorem Get_reads_native_value `{HostStrings} `{NameFolding} :
  (forall environ k k' v,
      Posix.valid_name (c_str (Utf8Value k)) = true ->
      c_str (Utf8Value k') = c_str (Utf8Value k) ->
      fst (Posix.RealEnvStore_Get (Posix.RealEnvStore_Set environ k v) k')
      = match NewFromUtf8 (c_str (Utf8Value v)) with
        | Some s => Ok (Some s)
        | None => Fatal ToLocalChecked_empty
        end)
  /\ (forall st k k' v,
      deref (TwoByteValue k) <> SEP ->
      Win32.valid_name (c_str (TwoByteValue k)) = true ->
      Z.of_nat (length (c_str (TwoByteValue v))) < Win32.buffer_size ->
      Win32.name_eqb (c_str (TwoByteValue k)) (c_str (TwoByteValue k')) = true ->
      fst (Win32.RealEnvStore_Get (Win32.RealEnvStore_Set st k v) k')
      = Ok (Some (c_str (TwoByteValue v)))
      \/ (NewFromTwoByte (c_str (TwoByteValue v)) = None
          /\ fst (Win32.RealEnvStore_Get (Win32.RealEnvStore_Set st k v) k')
             = Thrown ERR_STRING_TOO_LONG)).
Proof.
  split.
  - intros environ k k' v Ev Ek.
    rewrite PosixFrame.Get_getenv, Ek.
    unfold Posix.RealEnvStore_Set, Posix.setenv. rewrite Ev.
    rewrite PosixFacts.getenv_overwrite by auto using c_str_no_nul.
    unfold NewFromUtf8_n, window. cbn [Z.ltb Z.compare].
    now rewrite !c_str_idem.
  - unfold TwoByteValue. intros st k k' v Hd Ev Hfit Ek.
    rewrite Win32Facts.Get_lookup, (Win32Folding.lookup_fold _ _ _ Ek).
    rewrite Win32Facts.Set_block by assumption.
    rewrite Win32Facts.lookup_overwrite; auto using c_str_no_nul;
      [|now rewrite Win32Facts.deref_c_str].
    apply Z.ltb_lt in Hfit. rewrite c_str_idem, Hfit.
    destruct (NewFromTwoByte (c_str v)) as [s|] eqn:E.
    + left. apply NewFromTwoByte_exact in E. now subst s.
    + right. now split.
Qed.

(** A value with a NUL in the middle is read back up to the NUL, also
    under a key spelt in another case. *)
Lemma Get_reads_native_value_witness :
  fst (Win32.RealEnvStore_Get
         (Win32.RealEnvStore_Set started FOO [98; 97; 0; 114]) (units "foo"))
  = Ok (Some [98; 97])
  /\ fst (Posix.RealEnvStore_Get
            (Posix.RealEnvStore_Set inherited FOO [98; 97; 0; 114]) FOO)
     = Ok (Some [98; 97]).
Proof.
  split.
  - destruct (proj2 Get_reads_native_value started FOO (units "foo")
                [98; 97; 0; 114]) as [E | [E _]];
      [vm_compute; discriminate | reflexivity | reflexivity | reflexivity
      | exact E | discriminate E].
  - rewrite (proj1 Get_reads_native_value inherited FOO FOO [98; 97; 0; 114]);
      reflexivity.
Defined.

(** X17: a name the platform refuses (empty, or holding ['='], after
    the first character on the UTF-16 platform) changes nothing: [Set] and
    [Delete] on it leave the environment as it was, and the empty name is
    never found, neither by [Get] nor by [Query]. *)
Theorem refused_names_change_nothing `{HostStrings} `{NameFolding} :
  (forall environ k,
      Posix.valid_name (c_str (Utf8Value k)) = false ->
      (forall v, Posix.RealEnvStore_Set environ k v = environ)
      /\ Posix.RealEnvStore_Delete environ k = environ)
  /\ (forall environ k,
      c_str (Utf8Value k) = [] ->
      fst (Posix.RealEnvStore_Get environ k) = Ok None
      /\ fst (Posix.RealEnvStore_Query environ k) = -1)
  /\ (forall st k,
      Win32.valid_name (c_str (TwoByteValue k)) = false ->
      (forall v, Win32.block (Win32.RealEnvStore_Set st k v) = Win32.block st)
      /\ Win32.block (Win32.RealEnvStore_Delete st k) = Win32.block st)
  /\ (forall st k,
      c_str (TwoByteValue k) = [] ->
      fst (Win32.RealEnvStore_Get st k) = Ok None
      /\ fst (Win32.RealEnvStore_Query st k) = -1).
Proof.
  unfold TwoByteValue. split; [|split; [|split]].
  - intros environ k Ev. split.
    + intros v. unfold Posix.RealEnvStore_Set, Posix.setenv. now rewrite Ev.
    + unfold Posix.RealEnvStore_Delete, Posix.unsetenv. now rewrite Ev.
  - intros environ k Ek.
    rewrite PosixFrame.Get_getenv, PosixFrame.Query_getenv, Ek.
    now rewrite PosixFacts.getenv_empty.
  - intros st k Ev. split.
    + intros v. rewrite Win32Frame.Set_block_cases, Ev.
      now rewrite andb_false_r.
    + now rewrite Win32Frame.Delete_block_cases, Ev.
  - intros st k Ek.
    rewrite Win32Facts.Get_lookup, Win32Facts.Query_lookup, Ek.
    now rewrite Win32Facts.lookup_invalid.
Qed.

(** Setting ["A=B"] or the empty name leaves the environment alone. *)
Lemma refused_names_change_nothing_witness :
  Posix.RealEnvStore_Set inherited (units "A=B") bar = inherited
  /\ Win32.block (Win32.RealEnvStore_Set started [] bar) = Win32.block started
  /\ fst (Win32.RealEnvStore_Query started []) = -1.
Proof.
  assert (P : Posix.valid_name (c_str (Utf8Value (units "A=B"))) = false)
    by reflexivity.
  assert (W : Win32.valid_name (c_str (TwoByteValue [])) = false)
    by reflexivity.
  assert (E : c_str (TwoByteValue []) = []) by reflexivity.
  split; [|split].
  - apply (proj1 (proj1 refused_names_change_nothing inherited (units "A=B")
                    P)).
  - apply (proj1 (proj1 (proj2 (proj2 refused_names_change_nothing)) started []
                    W)).
  - apply (proj2 (proj2 (proj2 (proj2 refused_names_change_nothing)) started []
                    E)).
Defined.

(** ** Names and values that never reach the store or the collaborator *)

(** X18: an access through a symbol never reaches the store.  A read
    yields [undefined], a write ends with the exception of the failed
    coercion pending, a check produces no descriptor and a removal reports
    [true]; in all four the store and the record of the calls made on it
    are unchanged. *)
Theorem symbol_names_never_reach_the_store {S : Type} `{KVStore S}
    `{HostValues} (id : nat) (value : Value) (env : Environment S) :
  Facade.EnvGetter (VSymbol id) env = (Ok (Some VUndefined), env)
  /\ (fst (Facade.EnvSetter (VSymbol id) value env) = Thrown JSError
      /\ envvars (snd (Facade.EnvSetter (VSymbol id) value env)) = envvars env
      /\ calls (snd (Facade.EnvSetter (VSymbol id) value env)) = calls env)
  /\ Facade.EnvQuery (VSymbol id) env = (Ok None, env)
  /\ Facade.EnvDeleter (VSymbol id) env = (Ok (Some true), env).
Proof.
  split; [reflexivity|]. split; [|split; reflexivity].
  pose proof (FacadeFacts.EnvSetter_aborts (VSymbol id) value env
                (or_intror (or_introl eq_refl))) as T.
  split; [exact T|].
  destruct (FacadeFacts.EnvSetter_store (VSymbol id) value env)
    as [(E & C & _) | (key & vs & _ & _ & _ & _ & R)]; [now split|].
  congruence.
Qed.

(** X19: only a qualifying write uses up the one-time warning.  A write
    whose value is a string, a number or a boolean, or any write when the
    deprecation-pending option is off, hands no notice to the collaborator
    and leaves the warning due for a later write. *)
Theorem plain_writes_keep_the_warning_due {S : Type} `{KVStore S}
    `{HostValues} (name value : Value) (env : Environment S) :
  Writes.qualifies env value = false ->
  notices (snd (Facade.EnvSetter name value env)) = notices env
  /\ emit_env_nonstring_warning_ (snd (Facade.EnvSetter name value env))
     = emit_env_nonstring_warning_ env.
Proof.
  unfold Writes.qualifies. intros Q. split.
  - rewrite FacadeFacts.EnvSetter_notices. unfold Writes.qualifies.
    now rewrite Q.
  - unfold Facade.EnvSetter. rewrite Q.
    destruct (ToString name); [destruct (ToString value)|]; reflexivity.
Qed.

(** Writing the number 1 with the option on leaves the warning due. *)
Lemma plain_writes_keep_the_warning_due_witness :
  emit_env_nonstring_warning_
    (snd (Facade.EnvSetter (VString FOO) (VNumber 1) (fresh inherited true)))
  = true.
Proof.
  assert (Q : Writes.qualifies (fresh inherited true) (VNumber 1) = false)
    by reflexivity.
  apply (proj2 (plain_writes_keep_the_warning_due (VString FOO) (VNumber 1)
                  (fresh inherited true) Q)).
Defined.
